(** * SkillSwap server: the compatibility scoring and matching engine

    A shallow embedding of the helper functions at the end of
    [routes/users.js] (calculateCompatibilityScore and its five sub-scorers,
    findSkillMatches) and of the ranking step of the [GET /api/users/matches]
    handler, together with the properties the specification states about
    them.

    Conventions of the embedding.
    - A JavaScript number is a [JS.number]: a rational (arithmetic is exact,
      binary64 rounding is not modelled) or [NaN].  No computation of the
      engine can produce an infinity, so none is represented.
    - A JavaScript string is a [string]: the sequence of its UTF-16 code
      units, each of them below 256.
    - The user documents follow the Mongoose schema of [models/User.js]:
      [level] and [priority] are the schema's enums, [averageRating] is a
      number, [lastActive] a date (milliseconds since the epoch) and
      [location] an optional string.
    - [Date.now()] is passed as the explicit argument [now]. *)

From Stdlib Require Import ZArith QArith Qround Qminmax Lqa Lia.
From Stdlib Require Import Bool List String Ascii.
From Stdlib Require Import Permutation Sorted Morphisms Setoid.
From Stdlib Require Import NArith Nnat.
From Stdlib Require Decimal DecimalString DecimalFacts DecimalPos DecimalN.
Import ListNotations.

Local Open Scope string_scope.
Local Open Scope Q_scope.

(* ------------------------------------------------------------------ *)
(** ** JavaScript numbers, values and object literals *)

Module JS.

Inductive number : Type :=
| Num (q : Q)
| NaN.

(** Two numbers denote the same JavaScript number. *)
Definition num_eq (a b : number) : Prop :=
  match a, b with
  | Num p, Num q => p == q
  | NaN, NaN => True
  | _, _ => False
  end.

Definition is_finite (a : number) : bool :=
  match a with Num _ => true | NaN => false end.

(** [a] is a number (not NaN) between [lo] and [hi]. *)
Definition within (lo hi : Q) (a : number) : Prop :=
  match a with
  | Num q => lo <= q <= hi
  | NaN => False
  end.

Definition arith (f : Q -> Q -> Q) (a b : number) : number :=
  match a, b with
  | Num p, Num q => Num (f p q)
  | _, _ => NaN
  end.

Definition add : number -> number -> number := arith Qplus.
Definition sub : number -> number -> number := arith Qminus.
Definition mul : number -> number -> number := arith Qmult.

(** [a / b]; the engine divides by non-zero literals only, a zero divisor
    (an infinity or NaN in JavaScript) is mapped to [NaN]. *)
Definition div (a b : number) : number :=
  match a, b with
  | Num p, Num q => if Qeq_bool q 0 then NaN else Num (p / q)
  | _, _ => NaN
  end.

(** [Math.min] and [Math.max] of two arguments: NaN if either is NaN. *)
Definition Math_min : number -> number -> number := arith Qmin.
Definition Math_max : number -> number -> number := arith Qmax.

Definition Math_floor (a : number) : number :=
  match a with
  | Num q => Num (inject_Z (Qfloor q))
  | NaN => NaN
  end.

(** [Math.round]: the closest integer, ties towards +infinity. *)
Definition Math_round (a : number) : number :=
  match a with
  | Num q => Num (inject_Z (Qfloor (q + (1 # 2))))
  | NaN => NaN
  end.

(** What a property read on an object literal with numeric fields can give:
    a number, something inherited from [Object.prototype] (a function, or
    the prototype object itself for [__proto__]), or [undefined]. *)
Inductive value : Type :=
| VNumber (n : number)
| VInherited
| VUndefined.

Definition ToBoolean (v : value) : bool :=
  match v with
  | VNumber (Num q) => negb (Qeq_bool q 0)
  | VNumber NaN => false
  | VInherited => true
  | VUndefined => false
  end.

(** A function or a plain object converts to a string that is not a numeric
    literal, hence to NaN. *)
Definition ToNumber (v : value) : number :=
  match v with
  | VNumber n => n
  | VInherited => NaN
  | VUndefined => NaN
  end.

(** [a || b] *)
Definition or_else (a b : value) : value :=
  if ToBoolean a then a else b.

(** The property names every object literal inherits from
    [Object.prototype]. *)
Definition Object_prototype : list string :=
  [ "constructor"; "__defineGetter__"; "__defineSetter__"; "hasOwnProperty";
    "__lookupGetter__"; "__lookupSetter__"; "isPrototypeOf";
    "propertyIsEnumerable"; "toString"; "valueOf"; "__proto__";
    "toLocaleString" ].

Definition inherited (key : string) : bool :=
  existsb (String.eqb key) Object_prototype.

(** An object literal [{ k1: n1, ... }] with numeric fields. *)
Definition object : Type := list (string * Q).

Fixpoint own (o : object) (key : string) : option Q :=
  match o with
  | [] => None
  | (k, v) :: rest => if String.eqb k key then Some v else own rest key
  end.

(** [o[key]]: the own property, else what the prototype chain gives. *)
Definition get (o : object) (key : string) : value :=
  match own o key with
  | Some v => VNumber (Num v)
  | None => if inherited key then VInherited else VUndefined
  end.

(** [Array.prototype.sort(comparefn)].  The comparison of two elements is
    [comparefn(x, y)] with NaN read as 0; an element moves behind another
    one only when the comparison is positive.  The language leaves the
    algorithm open but requires a stable sort, so for a consistent
    comparator the result is the one this insertion sort computes. *)
Definition SortCompare {A : Type} (comparefn : A -> A -> number) (x y : A) : Q :=
  match comparefn x y with
  | Num v => v
  | NaN => 0
  end.

Fixpoint insert {A : Type} (comparefn : A -> A -> number) (x : A) (l : list A)
  : list A :=
  match l with
  | [] => [x]
  | y :: rest =>
      if Qle_bool (SortCompare comparefn x y) 0
      then x :: y :: rest
      else y :: insert comparefn x rest
  end.

Definition sort {A : Type} (comparefn : A -> A -> number) (l : list A)
  : list A :=
  fold_right (insert comparefn) [] l.

End JS.

Notation "a =n= b" := (JS.num_eq a b) (at level 70, no associativity).

(* ------------------------------------------------------------------ *)
(** ** String methods used by the engine *)

Module Str.

(** [String.prototype.toLowerCase] on code units below 256: A-Z and the
    Latin-1 capitals U+00C0..U+00DE (U+00D7, the multiplication sign, apart)
    move up by 32. *)
Definition lower_unit (c : ascii) : ascii :=
  let n := N_of_ascii c in
  if ((65 <=? n) && (n <=? 90)
      || (192 <=? n) && (n <=? 222) && negb (n =? 215))%N
  then ascii_of_N (n + 32)
  else c.

Fixpoint toLowerCase (s : string) : string :=
  match s with
  | EmptyString => EmptyString
  | String c r => String (lower_unit c) (toLowerCase r)
  end.

(** [s.split(sep)] for a one-character separator. *)
Fixpoint split (sep : ascii) (s : string) : list string :=
  match s with
  | EmptyString => [EmptyString]
  | String c r =>
      if Ascii.eqb c sep then EmptyString :: split sep r
      else match split sep r with
           | seg :: segs => String c seg :: segs
           | [] => [String c EmptyString]
           end
  end.

(** [s.includes(sub)] *)
Fixpoint includes (s sub : string) : bool :=
  String.prefix sub s
  || match s with
     | EmptyString => false
     | String _ r => includes r sub
     end.

(** White space and line terminators among the code units below 256. *)
Definition is_space (c : ascii) : bool :=
  let n := N_of_ascii c in
  ((9 <=? n) && (n <=? 13) || (n =? 32) || (n =? 160))%N.

Fixpoint trimStart (s : string) : string :=
  match s with
  | EmptyString => EmptyString
  | String c r => if is_space c then trimStart r else s
  end.

Fixpoint trimEnd (s : string) : string :=
  match s with
  | EmptyString => EmptyString
  | String c r =>
      match trimEnd r with
      | EmptyString => if is_space c then EmptyString else String c EmptyString
      | r' => String c r'
      end
  end.

(** [s.trim()] *)
Definition trim (s : string) : string := trimEnd (trimStart s).

End Str.

(* ------------------------------------------------------------------ *)
(** ** The user documents (models/User.js) *)

Inductive Level : Type := beginner | intermediate | advanced | expert.
Inductive Priority : Type := low | medium | high.

(** The string a document stores for an enum value. *)
Definition level_string (l : Level) : string :=
  match l with
  | beginner => "beginner"
  | intermediate => "intermediate"
  | advanced => "advanced"
  | expert => "expert"
  end.

Definition priority_string (p : Priority) : string :=
  match p with
  | low => "low"
  | medium => "medium"
  | high => "high"
  end.

Module Offered.
Record t : Type := Build
  { name : string;
    level : Level;
    description : option string }.
End Offered.

Module Wanted.
Record t : Type := Build
  { name : string;
    priority : Priority;
    description : option string }.
End Wanted.

Record User : Type := mkUser
  { skillsOffered : list Offered.t;
    skillsWanted : list Wanted.t;
    averageRating : Q;
    lastActive : Z;
    location : option string }.

(* ------------------------------------------------------------------ *)
(** ** The scoring helpers of routes/users.js *)

Import JS.

(** [x.toLowerCase() === y.toLowerCase()], the test of every [find]. *)
Definition same_name (x y : string) : bool :=
  String.eqb (Str.toLowerCase x) (Str.toLowerCase y).

Definition calculateLevelCompatibility
    (wantedPriority offeredLevel : string) : number :=
  let levelScores : object :=
    [ ("beginner", 1); ("intermediate", 2); ("advanced", 3); ("expert", 4) ] in
  let priorityMultipliers : object :=
    [ ("low", 0.5); ("medium", 1); ("high", 1.5) ] in
  let levelScore :=
    or_else (get levelScores offeredLevel) (VNumber (Num 1)) in
  let priorityMultiplier :=
    or_else (get priorityMultipliers wantedPriority) (VNumber (Num 1)) in
  mul (ToNumber levelScore) (ToNumber priorityMultiplier).

(** The body of the [forEach] of calculateSkillMatchScore: one wanted skill
    against the other user's offers, updating [score].  (The array
    [skillMatches] the source also fills is never read.) *)
Definition skillMatchStep (otherUser : User)
    (score : number) (wantedSkill : Wanted.t) : number :=
  match find (fun offeredSkill =>
                same_name (Offered.name offeredSkill) (Wanted.name wantedSkill))
             (skillsOffered otherUser) with
  | Some offeredMatch =>
      let matchScore := Num 0 in
      let matchScore := add matchScore (Num 5) in
      let matchScore :=
        if String.eqb (priority_string (Wanted.priority wantedSkill)) "high"
        then add matchScore (Num 3)
        else if String.eqb (priority_string (Wanted.priority wantedSkill)) "medium"
        then add matchScore (Num 2)
        else add matchScore (Num 1) in
      let levelCompatibility :=
        calculateLevelCompatibility
          (priority_string (Wanted.priority wantedSkill))
          (level_string (Offered.level offeredMatch)) in
      let matchScore := add matchScore levelCompatibility in
      add score matchScore
  | None => score
  end.

Definition calculateSkillMatchScore (currentUser otherUser : User) : number :=
  let score :=
    fold_left (skillMatchStep otherUser) (skillsWanted currentUser) (Num 0) in
  Math_min score (Num 20).

(** The body of the [forEach] of calculateMutualBenefitScore, on the pair
    of mutable locals [(score, mutualMatches)]. *)
Definition mutualBenefitStep (otherUser : User)
    (st : number * nat) (offeredSkill : Offered.t) : number * nat :=
  let '(score, mutualMatches) := st in
  match find (fun wantedSkill =>
                same_name (Wanted.name wantedSkill) (Offered.name offeredSkill))
             (skillsWanted otherUser) with
  | Some wantedMatch =>
      let mutualMatches := S mutualMatches in
      let matchScore := Num 0 in
      let matchScore := add matchScore (Num 8) in
      let matchScore :=
        if String.eqb (priority_string (Wanted.priority wantedMatch)) "high"
        then add matchScore (Num 4)
        else if String.eqb (priority_string (Wanted.priority wantedMatch)) "medium"
        then add matchScore (Num 2)
        else add matchScore (Num 1) in
      let levelCompatibility :=
        calculateLevelCompatibility
          (priority_string (Wanted.priority wantedMatch))
          (level_string (Offered.level offeredSkill)) in
      let matchScore := add matchScore levelCompatibility in
      (add score matchScore, mutualMatches)
  | None => (score, mutualMatches)
  end.

Definition calculateMutualBenefitScore (currentUser otherUser : User) : number :=
  let '(score, mutualMatches) :=
    fold_left (mutualBenefitStep otherUser) (skillsOffered currentUser)
              (Num 0, 0%nat) in
  let score :=
    if (1 <? mutualMatches)%nat
    then add score
             (mul (sub (Num (inject_Z (Z.of_nat mutualMatches))) (Num 1)) (Num 5))
    else score in
  Math_min score (Num 25).

(** [!location]: a missing location and the empty string are both falsy. *)
Definition missing (loc : option string) : bool :=
  match loc with
  | None => true
  | Some s => String.eqb s ""
  end.

(** [parts[i]] for an index the source has checked to be in range. *)
Definition item (parts : list string) (i : nat) : string :=
  nth i parts EmptyString.

Definition calculateLocationScore
    (currentLocation otherLocation : option string) : number :=
  if missing currentLocation || missing otherLocation then Num 0 else
  match currentLocation, otherLocation with
  | Some currentLocation, Some otherLocation =>
      let current := Str.toLowerCase currentLocation in
      let other := Str.toLowerCase otherLocation in
      if String.eqb current other then Num 10 else
      if Str.includes current (item (Str.split "," other) 0)
         || Str.includes other (item (Str.split "," current) 0)
      then Num 8 else
      let currentParts := Str.split "," current in
      let otherParts := Str.split "," other in
      if (1 <? List.length currentParts)%nat && (1 <? List.length otherParts)%nat
      then if String.eqb (Str.trim (item currentParts 1))
                         (Str.trim (item otherParts 1))
           then Num 5 else Num 0
      else Num 0
  | _, _ => Num 0
  end.

Record Breakdown : Type := mkBreakdown
  { skillMatch : number;
    mutualBenefit : number;
    ratingBonus : number;
    activityBonus : number;
    locationBonus : number }.

Record Score : Type := mkScore
  { totalScore : number;
    breakdown : Breakdown }.

Definition calculateCompatibilityScore
    (now : Z) (currentUser otherUser : User) : Score :=
  let totalScore := Num 0 in
  (* 1. Skill Match Score (40% weight) *)
  let skillMatchScore := calculateSkillMatchScore currentUser otherUser in
  let totalScore := add totalScore (mul skillMatchScore (Num 0.4)) in
  (* 2. Mutual Benefit Score (30% weight) *)
  let mutualBenefitScore := calculateMutualBenefitScore currentUser otherUser in
  let totalScore := add totalScore (mul mutualBenefitScore (Num 0.3)) in
  (* 3. Rating Bonus (15% weight) *)
  let ratingScore :=
    Math_min (mul (Num (averageRating otherUser)) (Num 2)) (Num 10) in
  let totalScore := add totalScore (mul ratingScore (Num 0.15)) in
  (* 4. Activity Bonus (10% weight) *)
  let daysSinceLastActive :=
    Math_floor
      (div (sub (Num (inject_Z now)) (Num (inject_Z (lastActive otherUser))))
           (Num (1000 * 60 * 60 * 24))) in
  let activityScore := Math_max (Num 0) (sub (Num 10) daysSinceLastActive) in
  let totalScore := add totalScore (mul activityScore (Num 0.1)) in
  (* 5. Location Bonus (5% weight) *)
  let locationScore :=
    calculateLocationScore (location currentUser) (location otherUser) in
  let totalScore := add totalScore (mul locationScore (Num 0.05)) in
  {| totalScore := div (Math_round (mul totalScore (Num 100))) (Num 100);
     breakdown :=
       {| skillMatch := skillMatchScore;
          mutualBenefit := mutualBenefitScore;
          ratingBonus := ratingScore;
          activityBonus := activityScore;
          locationBonus := locationScore |} |}.

(* ------------------------------------------------------------------ *)
(** ** findSkillMatches *)

Module YouCanTeach.
Record t : Type := Build
  { skill : string;
    yourLevel : Level;
    theirPriority : Priority;
    theirDescription : option string }.
End YouCanTeach.

Module TheyCanTeach.
Record t : Type := Build
  { skill : string;
    theirLevel : Level;
    yourPriority : Priority;
    yourDescription : option string }.
End TheyCanTeach.

Module MutualMatch.
Record t : Type := Build
  { skill : string;
    yourLevel : Level;
    theirLevel : Level }.
End MutualMatch.

Record SkillMatches : Type := mkSkillMatches
  { youCanTeach : list YouCanTeach.t;
    theyCanTeach : list TheyCanTeach.t;
    mutualMatches : list MutualMatch.t }.

(** [array.push(x)] *)
Definition push {A : Type} (array : list A) (x : A) : list A := array ++ [x].

Definition findSkillMatches (currentUser otherUser : User) : SkillMatches :=
  (* Find skills you can teach that they want *)
  let youCanTeach :=
    fold_left
      (fun acc offeredSkill =>
         match find (fun wantedSkill =>
                       same_name (Wanted.name wantedSkill)
                                 (Offered.name offeredSkill))
                    (skillsWanted otherUser) with
         | Some wantedMatch =>
             push acc
               {| YouCanTeach.skill := Offered.name offeredSkill;
                  YouCanTeach.yourLevel := Offered.level offeredSkill;
                  YouCanTeach.theirPriority := Wanted.priority wantedMatch;
                  YouCanTeach.theirDescription := Wanted.description wantedMatch |}
         | None => acc
         end)
      (skillsOffered currentUser) [] in
  (* Find skills they can teach that you want *)
  let theyCanTeach :=
    fold_left
      (fun acc offeredSkill =>
         match find (fun wantedSkill =>
                       same_name (Wanted.name wantedSkill)
                                 (Offered.name offeredSkill))
                    (skillsWanted currentUser) with
         | Some wantedMatch =>
             push acc
               {| TheyCanTeach.skill := Offered.name offeredSkill;
                  TheyCanTeach.theirLevel := Offered.level offeredSkill;
                  TheyCanTeach.yourPriority := Wanted.priority wantedMatch;
                  TheyCanTeach.yourDescription := Wanted.description wantedMatch |}
         | None => acc
         end)
      (skillsOffered otherUser) [] in
  (* Find mutual matches (same skill both can teach each other) *)
  let mutualMatches :=
    fold_left
      (fun acc offeredSkill =>
         match find (fun otherOfferedSkill =>
                       same_name (Offered.name offeredSkill)
                                 (Offered.name otherOfferedSkill))
                    (skillsOffered otherUser) with
         | Some mutualMatch =>
             push acc
               {| MutualMatch.skill := Offered.name offeredSkill;
                  MutualMatch.yourLevel := Offered.level offeredSkill;
                  MutualMatch.theirLevel := Offered.level mutualMatch |}
         | None => acc
         end)
      (skillsOffered currentUser) [] in
  {| youCanTeach := youCanTeach;
     theyCanTeach := theyCanTeach;
     mutualMatches := mutualMatches |}.

(* ------------------------------------------------------------------ *)
(** ** The ranking step of GET /api/users/matches *)

Record ScoredUser : Type := mkScoredUser
  { user : User;
    compatibilityScore : number;
    scoreBreakdown : Breakdown }.

(** [potentialMatches.map(user => ({ ...user, compatibilityScore, scoreBreakdown }))] *)
Definition scoreUsers (now : Z) (currentUser : User)
    (potentialMatches : list User) : list ScoredUser :=
  map (fun user =>
         let score := calculateCompatibilityScore now currentUser user in
         {| user := user;
            compatibilityScore := totalScore score;
            scoreBreakdown := breakdown score |})
      potentialMatches.

(** [(a, b) => b.compatibilityScore - a.compatibilityScore] *)
Definition byScore (a b : ScoredUser) : number :=
  sub (compatibilityScore b) (compatibilityScore a).

(** [scoredUsers.sort(byScore)] *)
Definition sortByScore (scoredUsers : list ScoredUser) : list ScoredUser :=
  sort byScore scoredUsers.

Definition rankMatches (now : Z) (currentUser : User)
    (potentialMatches : list User) : list ScoredUser :=
  sortByScore (scoreUsers now currentUser potentialMatches).

(* ------------------------------------------------------------------ *)
(** ** The specification's formulas

    Definitions that follow the wording of the specification; the theorems
    below compare them with the functions above. *)

Module Spec.

(** Section 4.4: the level score and the priority multiplier, 1 for any
    value the tables do not list. *)
Definition levelScore (level : string) : Q :=
  if String.eqb level "beginner" then 1
  else if String.eqb level "intermediate" then 2
  else if String.eqb level "advanced" then 3
  else if String.eqb level "expert" then 4
  else 1.

Definition priorityMultiplier (priority : string) : Q :=
  if String.eqb priority "low" then 0.5
  else if String.eqb priority "medium" then 1
  else if String.eqb priority "high" then 1.5
  else 1.

Definition levelCompatibility (priority level : string) : Q :=
  levelScore level * priorityMultiplier priority.

Definition sum (l : list Q) : Q := fold_right Qplus 0 l.

(** Section 4.1: the wanted skills of the current user that have a match
    among the candidate's offers, each with its match. *)
Definition skillMatchOf (candidate : User) (w : Wanted.t)
  : list (Wanted.t * Offered.t) :=
  match find (fun o => same_name (Offered.name o) (Wanted.name w))
             (skillsOffered candidate) with
  | Some o => [(w, o)]
  | None => []
  end.

Definition skillPairs (currentUser candidate : User)
  : list (Wanted.t * Offered.t) :=
  flat_map (skillMatchOf candidate) (skillsWanted currentUser).

Definition skillPriorityBonus (p : Priority) : Q :=
  match p with high => 3 | medium => 2 | low => 1 end.

Definition skillPoints (m : Wanted.t * Offered.t) : Q :=
  5 + skillPriorityBonus (Wanted.priority (fst m))
  + levelCompatibility (priority_string (Wanted.priority (fst m)))
                       (level_string (Offered.level (snd m))).

Definition skillMatchScore (currentUser candidate : User) : Q :=
  Qmin (sum (map skillPoints (skillPairs currentUser candidate))) 20.

(** Section 4.2: the offered skills of the current user that the candidate
    wants, each with the matching wanted skill. *)
Definition mutualMatchOf (candidate : User) (o : Offered.t)
  : list (Offered.t * Wanted.t) :=
  match find (fun w => same_name (Wanted.name w) (Offered.name o))
             (skillsWanted candidate) with
  | Some w => [(o, w)]
  | None => []
  end.

Definition mutualPairs (currentUser candidate : User)
  : list (Offered.t * Wanted.t) :=
  flat_map (mutualMatchOf candidate) (skillsOffered currentUser).

Definition mutualPriorityBonus (p : Priority) : Q :=
  match p with high => 4 | medium => 2 | low => 1 end.

Definition mutualPoints (m : Offered.t * Wanted.t) : Q :=
  8 + mutualPriorityBonus (Wanted.priority (snd m))
  + levelCompatibility (priority_string (Wanted.priority (snd m)))
                       (level_string (Offered.level (fst m))).

Definition multiMatchBonus (matchCount : nat) : Q :=
  if (1 <? matchCount)%nat
  then inject_Z (Z.of_nat matchCount - 1) * 5
  else 0.

Definition mutualBenefitScore (currentUser candidate : User) : Q :=
  let pairs := mutualPairs currentUser candidate in
  Qmin (sum (map mutualPoints pairs) + multiMatchBonus (List.length pairs)) 25.

(** Section 4.6 as worded: the city test compares the first segment of one
    location with the first segment of the other. *)
Definition locationScore (a b : option string) : Q :=
  match a, b with
  | Some a, Some b =>
      if String.eqb a "" || String.eqb b "" then 0 else
      let a := Str.toLowerCase a in
      let b := Str.toLowerCase b in
      let segmentsA := Str.split "," a in
      let segmentsB := Str.split "," b in
      if String.eqb a b then 10
      else if Str.includes (item segmentsA 0) (item segmentsB 0)
              || Str.includes (item segmentsB 0) (item segmentsA 0) then 8
      else if (2 <=? List.length segmentsA)%nat
              && (2 <=? List.length segmentsB)%nat
              && String.eqb (Str.trim (item segmentsA 1))
                            (Str.trim (item segmentsB 1)) then 5
      else 0
  | _, _ => 0
  end.

(** [sub] occurs in [s]. *)
Definition substring (sub s : string) : Prop :=
  exists pre post, s = (pre ++ sub ++ post)%string.

(** The pieces of a string between its commas, put together again. *)
Fixpoint join (segments : list string) : string :=
  match segments with
  | [] => EmptyString
  | [s] => s
  | s :: rest => (s ++ String "," (join rest))%string
  end.

(** The code unit [c] occurs in [s]. *)
Fixpoint has_unit (c : ascii) (s : string) : bool :=
  match s with
  | EmptyString => false
  | String d r => Ascii.eqb d c || has_unit c r
  end.



(** Section 4.5: the whole days elapsed since the candidate was last
    active. *)
Definition daysSinceLastActive (now : Z) (candidate : User) : Z :=
  ((now - lastActive candidate) / 86400000)%Z.




(** The score of a candidate is a number. *)
Definition hasScore (u : ScoredUser) : Prop :=
  is_finite (compatibilityScore u) = true.

(** Section 4.9: a list ranked by score, highest first. *)
Definition score_of (u : ScoredUser) : Q :=
  match compatibilityScore u with Num q => q | NaN => 0 end.

Definition descending (l : list ScoredUser) : Prop :=
  StronglySorted (fun a b => score_of b <= score_of a) l.

(** The candidates of [l] whose score is [q], in the order of [l]. *)
Definition tied (q : Q) (l : list ScoredUser) : list ScoredUser :=
  filter (fun u => Qeq_bool (score_of u) q) l.

End Spec.

(* ------------------------------------------------------------------ *)
(** ** The concrete scenarios of the specification *)

Module Scenario.

Definition day : Z := 1000 * 60 * 60 * 24.
(** 2026-01-01T00:00:00Z *)
Definition now : Z := 1767225600000.

Definition currentUser : User :=
  {| skillsOffered := [ Offered.Build "JavaScript" advanced None ];
     skillsWanted := [ Wanted.Build "Python" high None ];
     averageRating := 0;
     lastActive := now;
     location := Some "New York, NY" |}.

Definition candidate : User :=
  {| skillsOffered := [ Offered.Build "Python" expert None ];
     skillsWanted := [ Wanted.Build "JavaScript" medium None ];
     averageRating := 5;
     lastActive := now - 15 * day;
     location := Some "New York, NY" |}.


(** A learner and a teacher of one skill, the same in everything else. *)
Definition learner : User :=
  {| skillsOffered := [];
     skillsWanted := [ Wanted.Build "Python" high None ];
     averageRating := 4;
     lastActive := now;
     location := None |}.

Definition teacher : User :=
  {| skillsOffered := [ Offered.Build "Python" expert None ];
     skillsWanted := [];
     averageRating := 4;
     lastActive := now;
     location := None |}.


(** A user without skills, elsewhere. *)
Definition bystander : User :=
  {| skillsOffered := [];
     skillsWanted := [];
     averageRating := 4;
     lastActive := now;
     location := Some "Paris, France" |}.

(** Four scored candidates of [currentUser]; the first and the third have
    the same score. *)
Definition scored : list ScoredUser :=
  scoreUsers now currentUser [ learner; candidate; bystander; teacher ].

End Scenario.

(* ------------------------------------------------------------------ *)
(** ** The page of GET /api/users/matches

    [page] and [limit] are destructured from [req.query] with the defaults
    1 and 10.  A parameter that is present is a string; the model takes the
    texts a client sends for a page or a limit, the decimal numerals of the
    natural numbers.  The arithmetic of the handler then meets integers,
    and the strings that [+] builds as soon as one operand is a string. *)

Module Page.

Inductive param : Type :=
| Absent
| Numeral (n : N).

Inductive value : Type :=
| VInt (z : Z)
| VNaN
| VStr (s : string).

(** The decimal text of an integer, and the integer a decimal text (an
    optional minus sign and digits) stands for. *)
Definition ToString (z : Z) : string :=
  DecimalString.NilZero.string_of_int (Z.to_int z).

Definition StringToNumber (s : string) : option Z :=
  option_map Z.of_int (DecimalString.NilZero.int_of_string s).

(** [const { p = default } = req.query] *)
Definition destructure (p : param) (default : Z) : value :=
  match p with
  | Absent => VInt default
  | Numeral n => VStr (ToString (Z.of_N n))
  end.

(** ToNumber; [None] is NaN. *)
Definition ToNumber (v : value) : option Z :=
  match v with
  | VInt z => Some z
  | VNaN => None
  | VStr s => StringToNumber s
  end.

Definition number (n : option Z) : value :=
  match n with
  | Some z => VInt z
  | None => VNaN
  end.

Definition text (v : value) : string :=
  match v with
  | VInt z => ToString z
  | VNaN => "NaN"
  | VStr s => s
  end.

(** [parseInt(v)] reads the integer at the start of the text of [v]; the
    texts met here (digits with an optional sign, or NaN) are integers as a
    whole or start with none. *)
Definition parseInt (v : value) : option Z :=
  StringToNumber (text v).

(** [a - b] and [a * b] convert both operands to numbers. *)
Definition minus (a b : value) : value :=
  match ToNumber a, ToNumber b with
  | Some x, Some y => VInt (x - y)
  | _, _ => VNaN
  end.

Definition times (a b : value) : value :=
  match ToNumber a, ToNumber b with
  | Some x, Some y => VInt (x * y)
  | _, _ => VNaN
  end.

(** [a + b] concatenates as soon as one operand is a string. *)
Definition plus (a b : value) : value :=
  match a, b with
  | VStr _, _ | _, VStr _ => VStr (text a ++ text b)
  | _, _ =>
      match ToNumber a, ToNumber b with
      | Some x, Some y => VInt (x + y)
      | _, _ => VNaN
      end
  end.

(** [a < b] where at least one side is a number: false on NaN. *)
Definition less (a b : value) : bool :=
  match ToNumber a, ToNumber b with
  | Some x, Some y => (x <? y)%Z
  | _, _ => false
  end.

(** The index [Array.prototype.slice] makes of an argument: NaN counts as
    0, a negative index counts from the end, all within [0, len]. *)
Definition relativeIndex (len : nat) (v : value) : nat :=
  match ToNumber v with
  | None => 0%nat
  | Some z =>
      if (z <? 0)%Z then Z.to_nat (Z.max (Z.of_nat len + z) 0)
      else Nat.min (Z.to_nat z) len
  end.

(** [array.slice(start, end)] *)
Definition slice {A : Type} (array : list A) (start stop : value) : list A :=
  let k := relativeIndex (List.length array) start in
  let final := relativeIndex (List.length array) stop in
  firstn (final - k) (skipn k array).

(** [Math.ceil(length / limit)]; [None] when the quotient is not a finite
    number (JSON then carries null). *)
Definition pages (length : nat) (limit : value) : option Z :=
  match ToNumber limit with
  | Some l => if (l =? 0)%Z then None else Some (- (- Z.of_nat length / l))%Z
  | None => None
  end.

Record Pagination : Type := mkPagination
  { currentPage : option Z;
    totalPages : option Z;
    totalUsers : nat;
    hasNext : bool;
    hasPrev : bool }.

Record t (A : Type) : Type := mk
  { data : list A;
    pagination : Pagination }.

Arguments mk {A}.
Arguments data {A}.
Arguments pagination {A}.

(** The tail of the handler, from the sorted [scoredUsers] on. *)
Definition paginate {A : Type} (page limit : param) (scoredUsers : list A)
  : t A :=
  let page := destructure page 1 in
  let limit := destructure limit 10 in
  (* Apply pagination *)
  let startIndex := times (minus page (VInt 1)) limit in
  let endIndex := plus startIndex limit in
  let paginatedUsers := slice scoredUsers startIndex endIndex in
  {| data := paginatedUsers;
     pagination :=
       {| currentPage := parseInt page;
          totalPages := pages (List.length scoredUsers) limit;
          totalUsers := List.length scoredUsers;
          hasNext := less endIndex (VInt (Z.of_nat (List.length scoredUsers)));
          hasPrev := less (VInt 1) page |} |}.

End Page.

(** The handler: 404 without a current user, else the requested page of
    the ranked candidates.  [potentialMatches] is what the database query
    returns. *)
Definition getMatches (now : Z) (currentUser : option User)
    (potentialMatches : list User) (page limit : Page.param)
  : option (Page.t ScoredUser) :=
  match currentUser with
  | None => None
  | Some currentUser =>
      Some (Page.paginate page limit
              (rankMatches now currentUser potentialMatches))
  end.

(* ------------------------------------------------------------------ *)
(** ** GET /api/users/skills/offered *)

(** [acc.includes(name)] *)
Definition includesName (acc : list string) (name : string) : bool :=
  existsb (String.eqb name) acc.

(** The [reduce] over the users, with its [forEach] over the skills. *)
Definition collectSkills (users : list User) : list string :=
  fold_left
    (fun acc user =>
       fold_left
         (fun acc skill =>
            if negb (includesName acc (Offered.name skill))
            then push acc (Offered.name skill)
            else acc)
         (skillsOffered user) acc)
    users [].

(** The comparison of [sort()] without a comparator: the order of the
    strings by code units. *)
Definition defaultCompare (x y : string) : number :=
  if String.ltb x y then Num (-1)
  else if String.ltb y x then Num 1
  else Num 0.

(** [allSkills.sort()] *)
Definition offeredSkillNames (users : list User) : list string :=
  sort defaultCompare (collectSkills users).

(* ------------------------------------------------------------------ *)
(** ** Ratings (models/Rating.js, routes/ratings.js) *)

(** An ObjectId as text. *)
Definition Id : Type := string.

Module Rating.
Record t : Type := Build
  { swapRequest : Id;
    rater : Id;
    rated : Id;
    rating : Q;
    feedback : option string;
    skillAccuracy : option Q;
    communication : option Q;
    punctuality : option Q;
    wouldRecommend : bool }.
End Rating.

(** The update document updateUserRating hands to findByIdAndUpdate. *)
Module RatingUpdate.
Record t : Type := Build
  { averageRating : number;
    totalRatings : nat }.
End RatingUpdate.

(** [allRatings] is the ratings collection; [Rating.find({ rated: userId })]
    selects from it.  [None]: the user document is not touched. *)
Definition updateUserRating (allRatings : list Rating.t) (userId : Id)
  : option RatingUpdate.t :=
  let ratings := filter (fun r => String.eqb (Rating.rated r) userId) allRatings in
  if (0 <? List.length ratings)%nat then
    let totalRating :=
      fold_left (fun sum rating => add sum (Num (Rating.rating rating)))
                ratings (Num 0) in
    let averageRating :=
      div totalRating (Num (inject_Z (Z.of_nat (List.length ratings)))) in
    Some {| RatingUpdate.averageRating :=
              div (Math_round (mul averageRating (Num 10))) (Num 10);
            RatingUpdate.totalRatings := List.length ratings |}
  else None.

(* ------------------------------------------------------------------ *)
(** ** Swap requests (models/SwapRequest.js, routes/swaps.js) *)

(** The status line of a reply: 200, 201, 400, 403, 404. *)
Inductive Reply : Type := OK | Created | BadRequest | Forbidden | NotFound.

Module Swap.

Inductive Status : Type := pending | accepted | rejected | completed | cancelled.

Definition status_eqb (a b : Status) : bool :=
  match a, b with
  | pending, pending | accepted, accepted | rejected, rejected
  | completed, completed | cancelled, cancelled => true
  | _, _ => false
  end.

(** The fields of a swap request that the handlers below read or write;
    the skills, the message and the meeting fields are carried along
    unchanged. *)
Record t : Type := Build
  { requester : Id;
    provider : Id;
    status : Status;
    responseDate : option Z;
    completionDate : option Z }.

(** What [SwapRequest.create] stores for a new request: the status takes
    its default, no date is set. *)
Definition fresh (requester provider : Id) : t :=
  {| requester := requester;
     provider := provider;
     status := pending;
     responseDate := None;
     completionDate := None |}.

(** [[requester.toString(), provider.toString()].includes(user)] *)
Definition isParticipant (swapRequest : t) (user : Id) : bool :=
  existsb (String.eqb user) [requester swapRequest; provider swapRequest].

End Swap.

(** Each handler gets the document [findById] returned, if any, and gives
    its reply and the document the collection holds afterwards. *)

(** PUT /api/swaps/:id/accept *)
Definition acceptSwap (user : Id) (now : Z) (found : option Swap.t)
  : Reply * option Swap.t :=
  match found with
  | None => (NotFound, None)
  | Some swapRequest =>
      (* Check if user is the provider *)
      if negb (String.eqb (Swap.provider swapRequest) user)
      then (Forbidden, found)
      (* Check if request is still pending *)
      else if negb (Swap.status_eqb (Swap.status swapRequest) Swap.pending)
      then (BadRequest, found)
      else (OK, Some {| Swap.requester := Swap.requester swapRequest;
                        Swap.provider := Swap.provider swapRequest;
                        Swap.status := Swap.accepted;
                        Swap.responseDate := Some now;
                        Swap.completionDate :=
                          Swap.completionDate swapRequest |})
  end.

(** PUT /api/swaps/:id/reject.  (The reason the handler also sets is not a
    path of the schema.) *)
Definition rejectSwap (user : Id) (now : Z) (found : option Swap.t)
  : Reply * option Swap.t :=
  match found with
  | None => (NotFound, None)
  | Some swapRequest =>
      if negb (String.eqb (Swap.provider swapRequest) user)
      then (Forbidden, found)
      else if negb (Swap.status_eqb (Swap.status swapRequest) Swap.pending)
      then (BadRequest, found)
      else (OK, Some {| Swap.requester := Swap.requester swapRequest;
                        Swap.provider := Swap.provider swapRequest;
                        Swap.status := Swap.rejected;
                        Swap.responseDate := Some now;
                        Swap.completionDate :=
                          Swap.completionDate swapRequest |})
  end.

(** PUT /api/swaps/:id/complete *)
Definition completeSwap (user : Id) (now : Z) (found : option Swap.t)
  : Reply * option Swap.t :=
  match found with
  | None => (NotFound, None)
  | Some swapRequest =>
      (* Check if user is part of the swap *)
      if negb (Swap.isParticipant swapRequest user)
      then (Forbidden, found)
      (* Check if request is accepted *)
      else if negb (Swap.status_eqb (Swap.status swapRequest) Swap.accepted)
      then (BadRequest, found)
      else (OK, Some {| Swap.requester := Swap.requester swapRequest;
                        Swap.provider := Swap.provider swapRequest;
                        Swap.status := Swap.completed;
                        Swap.responseDate := Swap.responseDate swapRequest;
                        Swap.completionDate := Some now |})
  end.

(** DELETE /api/swaps/:id *)
Definition deleteSwap (user : Id) (found : option Swap.t)
  : Reply * option Swap.t :=
  match found with
  | None => (NotFound, None)
  | Some swapRequest =>
      (* Check if user is the requester *)
      if negb (String.eqb (Swap.requester swapRequest) user)
      then (Forbidden, found)
      (* Check if request is still pending *)
      else if negb (Swap.status_eqb (Swap.status swapRequest) Swap.pending)
      then (BadRequest, found)
      else (OK, None)
  end.

(** A call of one of the four handlers by [user] at time [now], and the
    document after a series of calls. *)
Inductive Action : Type := Accept | Reject | Complete | Delete.

Record Call : Type := mkCall
  { action : Action;
    caller : Id;
    time : Z }.

Definition handle (c : Call) (found : option Swap.t) : Reply * option Swap.t :=
  match action c with
  | Accept => acceptSwap (caller c) (time c) found
  | Reject => rejectSwap (caller c) (time c) found
  | Complete => completeSwap (caller c) (time c) found
  | Delete => deleteSwap (caller c) found
  end.

Definition after (calls : list Call) (doc : option Swap.t) : option Swap.t :=
  fold_left (fun doc c => snd (handle c doc)) calls doc.

(** POST /api/swaps/request, up to the call of [SwapRequest.create]: the
    reply of a refused request, or the requester, provider and skill names
    of the document that is handed to [SwapRequest.create].  [skillOffered]
    and [skillWanted] stand for the [name] fields of the two skill objects
    of the request body, which is all the handler reads of them. *)
Inductive Request : Type :=
| Refused (reply : Reply)
| Create (requester provider : Id) (skillOffered skillWanted : string).

Definition requestSwap (user : Id) (requesterProfile : User)
    (providerId : Id) (provider : option User)
    (skillOffered skillWanted : string) : Request :=
  match provider with
  | None => Refused NotFound
  | Some provider =>
      (* Check if user is trying to request from themselves *)
      if String.eqb providerId user then Refused BadRequest else
      (* Check if provider has the requested skill *)
      let hasSkill :=
        existsb (fun skill => same_name (Offered.name skill) skillWanted)
                (skillsOffered provider) in
      if negb hasSkill then Refused BadRequest else
      (* Check if requester has the offered skill *)
      let hasOfferedSkill :=
        existsb (fun skill => same_name (Offered.name skill) skillOffered)
                (skillsOffered requesterProfile) in
      if negb hasOfferedSkill then Refused BadRequest else
      Create user providerId skillOffered skillWanted
  end.

(* ------------------------------------------------------------------ *)
(** ** POST /api/ratings *)

Module RatingBody.
Record t : Type := Build
  { swapRequestId : Id;
    ratedUserId : option Id;
    rating : option Q;
    feedback : option string;
    skillAccuracy : option Q;
    communication : option Q;
    punctuality : option Q;
    wouldRecommend : option bool }.
End RatingBody.

(** The validators of the Rating schema: [min: 1, max: 5] on a number that
    is present, [maxlength] on a string that is present. *)
Definition inStars (v : option Q) : bool :=
  match v with
  | Some q => Qle_bool 1 q && Qle_bool q 5
  | None => true
  end.

Definition withinLength (n : nat) (v : option string) : bool :=
  match v with
  | Some s => (String.length s <=? n)%nat
  | None => true
  end.

(** [Rating.create]: the stored document, or [None] when a validator of
    the schema fails (the handler then answers 400). *)
Definition createDocument (user : Id) (body : RatingBody.t)
  : option Rating.t :=
  match RatingBody.ratedUserId body, RatingBody.rating body with
  | Some rated, Some rating =>
      if inStars (Some rating)
         && withinLength 500 (RatingBody.feedback body)
         && inStars (RatingBody.skillAccuracy body)
         && inStars (RatingBody.communication body)
         && inStars (RatingBody.punctuality body)
      then Some {| Rating.swapRequest := RatingBody.swapRequestId body;
                   Rating.rater := user;
                   Rating.rated := rated;
                   Rating.rating := rating;
                   Rating.feedback := RatingBody.feedback body;
                   Rating.skillAccuracy := RatingBody.skillAccuracy body;
                   Rating.communication := RatingBody.communication body;
                   Rating.punctuality := RatingBody.punctuality body;
                   Rating.wouldRecommend :=
                     match RatingBody.wouldRecommend body with
                     | Some b => b
                     | None => true
                     end |}
      else None
  | _, _ => None
  end.

Module Rated.
(** The reply, the ratings collection afterwards, and the update of the
    rated user's document, if one is made. *)
Record t : Type := Build
  { reply : Reply;
    ratings : list Rating.t;
    userUpdate : option (Id * RatingUpdate.t) }.
End Rated.

Definition createRating (user : Id) (body : RatingBody.t)
    (found : option Swap.t) (allRatings : list Rating.t) : Rated.t :=
  let refuse reply := Rated.Build reply allRatings None in
  match found with
  | None => refuse NotFound
  | Some swapRequest =>
      if negb (Swap.status_eqb (Swap.status swapRequest) Swap.completed)
      then refuse BadRequest
      (* Check if user is part of the swap *)
      else if negb (Swap.isParticipant swapRequest user)
      then refuse Forbidden
      (* Check if rating already exists *)
      else match find (fun r =>
                         String.eqb (Rating.swapRequest r)
                                    (RatingBody.swapRequestId body)
                         && String.eqb (Rating.rater r) user)
                      allRatings with
           | Some existingRating => refuse BadRequest
           | None =>
               match createDocument user body with
               | None => refuse BadRequest
               | Some newRating =>
                   let allRatings := push allRatings newRating in
                   (* Update user's average rating *)
                   {| Rated.reply := Created;
                      Rated.ratings := allRatings;
                      Rated.userUpdate :=
                        option_map (pair (Rating.rated newRating))
                          (updateUserRating allRatings
                             (Rating.rated newRating)) |}
               end
           end
  end.

(* ------------------------------------------------------------------ *)
(** ** Notions used to state further properties of the engine *)

Module Facts.

(** [teacher] offers a skill that [learner] wants, names compared without
    regard to case. *)
Definition teaches (teacher learner : User) : Prop :=
  exists o w,
    In o (skillsOffered teacher) /\ In w (skillsWanted learner)
    /\ same_name (Offered.name o) (Wanted.name w) = true.

(** [a] and [b] are numbers and [a <= b]. *)
Definition num_le (a b : number) : Prop :=
  match a, b with
  | Num p, Num q => p <= q
  | _, _ => False
  end.

(** A profile with every skill name and the location in lower case. *)
Definition lowerOffered (o : Offered.t) : Offered.t :=
  {| Offered.name := Str.toLowerCase (Offered.name o);
     Offered.level := Offered.level o;
     Offered.description := Offered.description o |}.

Definition lowerWanted (w : Wanted.t) : Wanted.t :=
  {| Wanted.name := Str.toLowerCase (Wanted.name w);
     Wanted.priority := Wanted.priority w;
     Wanted.description := Wanted.description w |}.

Definition lowerCased (u : User) : User :=
  {| skillsOffered := map lowerOffered (skillsOffered u);
     skillsWanted := map lowerWanted (skillsWanted u);
     averageRating := averageRating u;
     lastActive := lastActive u;
     location := option_map Str.toLowerCase (location u) |}.

(** A profile with further skills at the end of its two lists. *)
Definition withMoreSkills (u : User) (offered : list Offered.t)
    (wanted : list Wanted.t) : User :=
  {| skillsOffered := skillsOffered u ++ offered;
     skillsWanted := skillsWanted u ++ wanted;
     averageRating := averageRating u;
     lastActive := lastActive u;
     location := location u |}.

(** What an entry of youCanTeach or theyCanTeach says: the skill, the
    teacher's level, the learner's priority and description. *)
Definition lesson : Type := (string * Level * Priority * option string)%type.

Definition ofYouCanTeach (e : YouCanTeach.t) : lesson :=
  (YouCanTeach.skill e, YouCanTeach.yourLevel e, YouCanTeach.theirPriority e,
   YouCanTeach.theirDescription e).

Definition ofTheyCanTeach (e : TheyCanTeach.t) : lesson :=
  (TheyCanTeach.skill e, TheyCanTeach.theirLevel e, TheyCanTeach.yourPriority e,
   TheyCanTeach.yourDescription e).

(** The lessons [teacher] can give to [learner]: the offered skills of the
    one that the other wants, in the order they are offered, each with the
    first wanted skill of that name. *)
Definition lessons (teacher learner : User) : list lesson :=
  flat_map
    (fun o =>
       match find (fun w => same_name (Wanted.name w) (Offered.name o))
                  (skillsWanted learner) with
       | Some w => [ (Offered.name o, Offered.level o, Wanted.priority w,
                      Wanted.description w) ]
       | None => []
       end)
    (skillsOffered teacher).

(** The shape of a swap request that started as a new one: its two
    parties, a status other than cancelled, a response date once it is no
    longer pending, a completion date once it is completed. *)
Definition regular (requester provider : Id) (s : Swap.t) : Prop :=
  Swap.requester s = requester /\ Swap.provider s = provider
  /\ Swap.status s <> Swap.cancelled
  /\ (Swap.responseDate s = None <-> Swap.status s = Swap.pending)
  /\ (Swap.completionDate s = None <-> Swap.status s <> Swap.completed).

(** The ratings collection as the schema wants it: stars between 1 and 5,
    and one rating at most per swap and rater. *)
Definition ratingKey (r : Rating.t) : Id * Id :=
  (Rating.swapRequest r, Rating.rater r).

Definition wellRated (allRatings : list Rating.t) : Prop :=
  Forall (fun r => 1 <= Rating.rating r <= 5) allRatings
  /\ NoDup (map ratingKey allRatings).

End Facts.

(* ------------------------------------------------------------------ *)
(** ** Further example profiles *)

Module Examples.

Definition offers (names : list string) (l : Level) : list Offered.t :=
  map (fun n => Offered.Build n l None) names.

Definition wants (names : list string) (p : Priority) : list Wanted.t :=
  map (fun n => Wanted.Build n p None) names.

(** A beginner in four skills, and somebody who cares little for them. *)
Definition mentor : User :=
  {| skillsOffered := offers ["Python"; "Rust"; "Go"; "SQL"] beginner;
     skillsWanted := [];
     averageRating := 3;
     lastActive := Scenario.now;
     location := Some "Berlin, Germany" |}.

Definition apprentice : User :=
  {| skillsOffered := [];
     skillsWanted := wants ["python"; "RUST"; "go"; "Sql"] low;
     averageRating := 3;
     lastActive := Scenario.now;
     location := Some "Berlin" |}.

(** Thirteen candidates for the current user of the scenarios. *)
Definition crowd : list User :=
  (repeat Scenario.learner 6 ++ repeat Scenario.teacher 6
   ++ [Scenario.candidate])%list.

(** A swap between "ann" (requester) and "bob" (provider), accepted by bob
    at time 100 and completed by ann at time 200; "eve" is a stranger. *)
Definition history : list Call :=
  [ mkCall Complete "ann" 50; mkCall Accept "eve" 60;
    mkCall Accept "bob" 100; mkCall Delete "ann" 150;
    mkCall Complete "ann" 200; mkCall Reject "bob" 300 ].

Definition done : Swap.t :=
  {| Swap.requester := "ann";
     Swap.provider := "bob";
     Swap.status := Swap.completed;
     Swap.responseDate := Some 100%Z;
     Swap.completionDate := Some 200%Z |}.

Definition stars (swap rater rated : Id) (n : Q) : Rating.t :=
  {| Rating.swapRequest := swap;
     Rating.rater := rater;
     Rating.rated := rated;
     Rating.rating := n;
     Rating.feedback := None;
     Rating.skillAccuracy := None;
     Rating.communication := None;
     Rating.punctuality := None;
     Rating.wouldRecommend := true |}.

(** Three ratings of bob and one of cy. *)
Definition collection : list Rating.t :=
  [ stars "s1" "ann" "bob" 5; stars "s2" "cy" "bob" 4;
    stars "s2" "bob" "cy" 2; stars "s3" "dee" "bob" 4 ].

(** Ann rates bob with 5 stars for the swap "s9". *)
Definition annRatesBob : RatingBody.t :=
  {| RatingBody.swapRequestId := "s9";
     RatingBody.ratedUserId := Some "bob";
     RatingBody.rating := Some 5;
     RatingBody.feedback := Some "Clear and patient.";
     RatingBody.skillAccuracy := Some 4;
     RatingBody.communication := None;
     RatingBody.punctuality := None;
     RatingBody.wouldRecommend := None |}.

End Examples.

(* ================================================================== *)
(** * Properties *)

(** ** Numbers *)

Section Numbers.


Lemma num_eq_sym (a b : number) : a =n= b -> b =n= a.
Proof. destruct a, b; simpl; auto. intros H; symmetry; exact H. Qed.

Lemma num_eq_trans (a b c : number) : a =n= b -> b =n= c -> a =n= c.
Proof.
  destruct a, b, c; simpl; auto; try contradiction.
  intros H1 H2; rewrite H1; exact H2.
Qed.

Lemma num_eq_Num (a : number) (q : Q) :
  a =n= Num q <-> exists p, a = Num p /\ p == q.
Proof.
  split.
  - destruct a as [p|]; simpl; [|contradiction]. intros H; exists p; auto.
  - intros (p & -> & H); exact H.
Qed.

Lemma Qmin_eq (p p' q q' : Q) : p == p' -> q == q' -> Qmin p q == Qmin p' q'.
Proof.
  intros Hp Hq.
  destruct (Q.min_spec p q) as [[H ->]|[H ->]],
           (Q.min_spec p' q') as [[H' ->]|[H' ->]]; lra.
Qed.

Lemma Qmin_glb (p q r : Q) : r <= p -> r <= q -> r <= Qmin p q.
Proof. intros; destruct (Q.min_spec p q) as [[_ ->]|[_ ->]]; assumption. Qed.

Lemma Qmax_bounds (p q lo hi : Q) :
  lo <= p -> p <= hi -> q <= hi -> lo <= Qmax p q <= hi.
Proof. intros; destruct (Q.max_spec p q) as [[? ->]|[? ->]]; lra. Qed.

End Numbers.

(** ** Strings *)

Section Strings.

Lemma prefix_app (p s : string) :
  String.prefix p s = true <-> exists post, s = (p ++ post)%string.
Proof.
  revert s; induction p as [|c p IH]; intros s.
  - split; [intros _; exists s; reflexivity | intros _; destruct s; reflexivity].
  - destruct s as [|d s]; simpl.
    + split; [discriminate | intros (post & H); discriminate].
    + destruct (ascii_dec c d) as [->|Hcd].
      * rewrite IH. split; intros (post & H); exists post.
        -- now rewrite H.
        -- now inversion H.
      * split; [discriminate | intros (post & H); inversion H; congruence].
Qed.

(** [includes] decides the occurrence of a string in another one. *)
Lemma includes_substring (s sub : string) :
  Str.includes s sub = true <-> Spec.substring sub s.
Proof.
  unfold Spec.substring.
  induction s as [|c s IH]; cbn [Str.includes].
  - rewrite orb_false_r, prefix_app. split.
    + intros (post & H); exists EmptyString, post; exact H.
    + intros ([|d pre] & post & H); [exists post; exact H|discriminate].
  - rewrite orb_true_iff, prefix_app, IH. split.
    + intros [(post & H)|(pre & post & H)].
      * exists EmptyString, post; exact H.
      * exists (String c pre), post; simpl; now rewrite H.
    + intros ([|d pre] & post & H).
      * left; exists post; exact H.
      * right; exists pre, post. simpl in H. now inversion H.
Qed.

Lemma split_not_nil (sep : ascii) (s : string) : Str.split sep s <> [].
Proof.
  destruct s as [|c s]; simpl; [discriminate|].
  destruct (Ascii.eqb c sep); [discriminate|].
  destruct (Str.split sep s); discriminate.
Qed.

(** The segments of [split], put together with the separator, give the
    string back. *)
Lemma split_join (s : string) : Spec.join (Str.split "," s) = s.
Proof.
  induction s as [|c s IH]; [reflexivity|].
  simpl Str.split. destruct (Ascii.eqb_spec c ",") as [->|Hc].
  - pose proof (split_not_nil "," s) as Hn.
    destruct (Str.split "," s) as [|seg segs]; [contradiction|].
    cbn [Spec.join]. simpl. now rewrite <- IH.
  - pose proof (split_not_nil "," s) as Hn.
    destruct (Str.split "," s) as [|seg segs]; [contradiction|].
    destruct segs as [|seg' segs]; simpl in *; now rewrite <- IH.
Qed.

(** No segment of [split] contains the separator. *)
Lemma split_no_separator (sep : ascii) (s : string) :
  Forall (fun seg => Spec.has_unit sep seg = false) (Str.split sep s).
Proof.
  induction s as [|c s IH]; simpl.
  - repeat constructor.
  - destruct (Ascii.eqb c sep) eqn:Hc.
    + constructor; [reflexivity | exact IH].
    + destruct (Str.split sep s) as [|seg segs]; [repeat constructor; simpl; now rewrite Hc|].
      inversion IH; subst. constructor; [simpl; now rewrite Hc | assumption].
Qed.

Example split_segments :
  Str.split "," "New York, NY" = ["New York"; " NY"]
  /\ Str.split "," "a,,b," = ["a"; ""; "b"; ""]
  /\ Str.split "," "" = [""].
Proof. repeat split. Qed.

Example trim_segment : Str.trim "  new  york " = "new  york".
Proof. reflexivity. Qed.

Example toLowerCase_name : Str.toLowerCase "JavaScript ES6" = "javascript es6".
Proof. reflexivity. Qed.

Example includes_city :
  Str.includes "austin, tx" "tx" = true
  /\ Str.includes "austin" "tx" = false
  /\ Str.includes "austin" "" = true.
Proof. repeat split. Qed.


Lemma same_name_sym (x y : string) : same_name x y = same_name y x.
Proof. unfold same_name. apply String.eqb_sym. Qed.

End Strings.

(** ** The level-compatibility bonus *)

Section LevelCompatibility.




(** On the strings a document can hold, the bonus is the product of the
    two table entries. *)
Lemma calculateLevelCompatibility_enum (p : Priority) (l : Level) :
  calculateLevelCompatibility (priority_string p) (level_string l)
  = Num (Spec.levelCompatibility (priority_string p) (level_string l)).
Proof. destruct p, l; reflexivity. Qed.

Lemma levelCompatibility_range (p : Priority) (l : Level) :
  0 <= Spec.levelCompatibility (priority_string p) (level_string l) <= 6.
Proof. destruct p, l; vm_compute; split; discriminate. Qed.




End LevelCompatibility.

(** ** The location score *)

Section Location.

(** C10.  calculateLocationScore gives the same score when its two
    arguments are exchanged. *)
Theorem calculateLocationScore_symmetric (a b : option string) :
  calculateLocationScore a b = calculateLocationScore b a.
Proof.
  unfold calculateLocationScore.
  rewrite (orb_comm (missing a)).
  destruct (missing b || missing a); [reflexivity|].
  destruct a as [x|], b as [y|]; try reflexivity.
  cbv zeta.
  rewrite (String.eqb_sym (Str.toLowerCase x)).
  destruct (String.eqb (Str.toLowerCase y) (Str.toLowerCase x)); [reflexivity|].
  rewrite orb_comm.
  destruct (Str.includes _ _ || Str.includes _ _); [reflexivity|].
  rewrite andb_comm.
  destruct (_ && _); [|reflexivity].
  now rewrite String.eqb_sym.
Qed.

Lemma calculateLocationScore_values (a b : option string) :
  In (calculateLocationScore a b) [Num 0; Num 5; Num 8; Num 10].
Proof.
  unfold calculateLocationScore.
  destruct (missing a || missing b); [simpl; auto|].
  destruct a, b; simpl; auto.
  repeat match goal with
         | |- context [if ?c then _ else _] => destruct c
         end; simpl; auto.
Qed.

End Location.

Section LocationCases.

Lemma missing_false (loc : option string) :
  missing loc = false <-> exists s, loc = Some s /\ s <> "".
Proof.
  destruct loc as [s|]; simpl.
  - rewrite String.eqb_neq. split.
    + intros H; exists s; auto.
    + intros (s' & [= <-] & H); exact H.
  - split; [discriminate | intros (s & H & _); discriminate].
Qed.

(** C5 (amended).  calculateLocationScore returns 0 if either location is
    missing or empty; else 10 when the lower-cased strings are equal; else 8
    exactly when the first comma-delimited segment of one lower-cased string
    occurs somewhere in the whole of the other lower-cased string; else 5
    when both have at least two segments and the second segments, trimmed,
    are equal; else 0. *)
Theorem calculateLocationScore_cases (a b : option string) :
  (missing a = true \/ missing b = true -> calculateLocationScore a b = Num 0)
  /\ (forall x y : string,
        a = Some x -> b = Some y -> x <> "" -> y <> "" ->
        let current := Str.toLowerCase x in
        let other := Str.toLowerCase y in
        let currentParts := Str.split "," current in
        let otherParts := Str.split "," other in
        let sameCity :=
          Spec.substring (item otherParts 0) current
          \/ Spec.substring (item currentParts 0) other in
        let sameRegion :=
          (2 <= List.length currentParts)%nat
          /\ (2 <= List.length otherParts)%nat
          /\ Str.trim (item currentParts 1) = Str.trim (item otherParts 1) in
        (current = other -> calculateLocationScore a b = Num 10)
        /\ (current <> other -> sameCity ->
            calculateLocationScore a b = Num 8)
        /\ (current <> other -> ~ sameCity -> sameRegion ->
            calculateLocationScore a b = Num 5)
        /\ (current <> other -> ~ sameCity -> ~ sameRegion ->
            calculateLocationScore a b = Num 0)).
Proof.
  split.
  - unfold calculateLocationScore. rewrite <- orb_true_iff. now intros ->.
  - intros x y -> -> Hx Hy current other currentParts otherParts
      sameCity sameRegion.
    assert (Hm : missing (Some x) || missing (Some y) = false).
    { apply orb_false_iff; split; apply missing_false; eauto. }
    unfold calculateLocationScore. rewrite Hm. cbv zeta.
    fold current other. fold currentParts otherParts.
    assert (Hcity :
      Str.includes current (item otherParts 0)
      || Str.includes other (item currentParts 0) = true <-> sameCity).
    { rewrite orb_true_iff, !includes_substring. reflexivity. }
    assert (Hregion :
      ((1 <? List.length currentParts)%nat && (1 <? List.length otherParts)%nat
       && String.eqb (Str.trim (item currentParts 1))
                     (Str.trim (item otherParts 1))) = true <-> sameRegion).
    { rewrite !andb_true_iff, !Nat.ltb_lt, String.eqb_eq.
      unfold sameRegion. intuition lia. }
    destruct (String.eqb_spec current other) as [Heq|Hne].
    + repeat split; intros; congruence.
    + destruct (Str.includes current (item otherParts 0)
                || Str.includes other (item currentParts 0)) eqn:Hc.
      * assert sameCity by now apply Hcity.
        repeat split; intros; try reflexivity; contradiction.
      * assert (~ sameCity) by (rewrite <- Hcity; discriminate).
        destruct ((1 <? List.length currentParts)%nat
                  && (1 <? List.length otherParts)%nat) eqn:Hlen;
          [destruct (String.eqb (Str.trim (item currentParts 1))
                                (Str.trim (item otherParts 1))) eqn:Htrim|];
          simpl in Hregion.
        -- assert sameRegion by now apply Hregion.
           repeat split; intros; try reflexivity; contradiction.
        -- assert (~ sameRegion) by (rewrite <- Hregion; discriminate).
           repeat split; intros; try reflexivity; contradiction.
        -- assert (~ sameRegion) by (rewrite <- Hregion; discriminate).
           repeat split; intros; try reflexivity; contradiction.
Qed.

(** C5, evidence: "tx", the first segment of "tx, usa", occurs in
    "austin, tx", so the score is 8. *)
Lemma calculateLocationScore_cases_witness :
  calculateLocationScore (Some "Austin, TX") (Some "TX, USA") = Num 8.
Proof.
  apply (proj2 (calculateLocationScore_cases (Some "Austin, TX")
                  (Some "TX, USA")) "Austin, TX" "TX, USA"
               eq_refl eq_refl);
    [discriminate | discriminate | discriminate |].
  left. exists "austin, ", EmptyString. reflexivity.
Defined.

(** C5 as stated fails: the first segments "austin" and "tx" do not occur
    in one another and the second segments differ, so the specification
    gives 0 where the code gives 8. *)
Lemma calculateLocationScore_whole_string :
  Spec.locationScore (Some "Austin, TX") (Some "TX, USA") == 0
  /\ ~ (calculateLocationScore (Some "Austin, TX") (Some "TX, USA")
        =n= Num (Spec.locationScore (Some "Austin, TX") (Some "TX, USA"))).
Proof. split; [reflexivity | vm_compute; discriminate]. Qed.

End LocationCases.

(** ** The skill-match score *)

Section SkillMatch.

Lemma sum_nonneg (l : list Q) : Forall (fun q => 0 <= q) l -> 0 <= Spec.sum l.
Proof.
  induction 1 as [|q l Hq _ IH]; simpl; [discriminate | lra].
Qed.

Lemma sum_app (l1 l2 : list Q) :
  Spec.sum (l1 ++ l2) == Spec.sum l1 + Spec.sum l2.
Proof. induction l1 as [|q l1 IH]; simpl; [|rewrite IH]; ring. Qed.

(** One turn of the loop adds the points of the match, if there is one. *)
Lemma skillMatchStep_points (otherUser : User) (a : Q) (w : Wanted.t) :
  exists q,
    skillMatchStep otherUser (Num a) w = Num q
    /\ q == a + Spec.sum (map Spec.skillPoints (Spec.skillMatchOf otherUser w)).
Proof.
  unfold skillMatchStep, Spec.skillMatchOf.
  destruct (find _ (skillsOffered otherUser)) as [o|].
  - rewrite calculateLevelCompatibility_enum.
    unfold Spec.skillPoints; cbn [map Spec.sum fold_right fst snd].
    destruct (Wanted.priority w); cbn [priority_string String.eqb Ascii.eqb
      Bool.eqb Spec.skillPriorityBonus add arith];
      eexists; (split; [reflexivity | ring]).
  - exists a; split; [reflexivity | simpl; ring].
Qed.

Lemma skillMatch_loop (otherUser : User) (ws : list Wanted.t) (a : Q) :
  exists q,
    fold_left (skillMatchStep otherUser) ws (Num a) = Num q
    /\ q == a + Spec.sum (map Spec.skillPoints
                            (flat_map (Spec.skillMatchOf otherUser) ws)).
Proof.
  revert a; induction ws as [|w ws IH]; intros a.
  - exists a; split; [reflexivity | simpl; ring].
  - destruct (skillMatchStep_points otherUser a w) as (q1 & E1 & H1).
    destruct (IH q1) as (q & E & H).
    exists q; split.
    + cbn [fold_left]. now rewrite E1.
    + cbn [flat_map]. rewrite map_app, sum_app, H, H1. ring.
Qed.

Lemma calculateSkillMatchScore_value (currentUser otherUser : User) :
  exists q,
    calculateSkillMatchScore currentUser otherUser = Num q
    /\ q == Spec.skillMatchScore currentUser otherUser.
Proof.
  unfold calculateSkillMatchScore, Spec.skillMatchScore, Spec.skillPairs.
  destruct (skillMatch_loop otherUser (skillsWanted currentUser) 0)
    as (q & -> & H).
  eexists; split; [reflexivity|].
  apply Qmin_eq; [rewrite H; ring | reflexivity].
Qed.

Lemma skillPoints_nonneg (m : Wanted.t * Offered.t) : 0 <= Spec.skillPoints m.
Proof.
  unfold Spec.skillPoints.
  pose proof (levelCompatibility_range (Wanted.priority (fst m))
                (Offered.level (snd m))).
  destruct (Wanted.priority (fst m)); simpl Spec.skillPriorityBonus; lra.
Qed.

Lemma skillMatchScore_range (currentUser otherUser : User) :
  0 <= Spec.skillMatchScore currentUser otherUser <= 20.
Proof.
  unfold Spec.skillMatchScore. split.
  - apply Qmin_glb; [|discriminate].
    apply sum_nonneg, Forall_forall. intros q Hq.
    apply in_map_iff in Hq as (m & <- & _). apply skillPoints_nonneg.
  - apply Q.le_min_r.
Qed.

Lemma find_never {A : Type} (f : A -> bool) (l : list A) :
  (forall x, In x l -> f x = false) -> find f l = None.
Proof.
  induction l as [|x l IH]; intros H; [reflexivity|].
  simpl. rewrite (H x (or_introl eq_refl)). apply IH.
  intros y Hy. apply H. now right.
Qed.

Lemma skillPairs_none (currentUser otherUser : User) :
  (forall w o, In w (skillsWanted currentUser) ->
               In o (skillsOffered otherUser) ->
               same_name (Offered.name o) (Wanted.name w) = false) ->
  Spec.skillPairs currentUser otherUser = [].
Proof.
  unfold Spec.skillPairs. intros H.
  induction (skillsWanted currentUser) as [|w ws IH]; [reflexivity|].
  cbn [flat_map]. unfold Spec.skillMatchOf at 1. rewrite find_never.
  - apply IH. intros w' o Hw. apply H. now right.
  - intros o Ho. apply H; [now left | exact Ho].
Qed.

(** C2.  calculateSkillMatchScore is the sum, over the wanted skills of the
    current user that have a case-insensitive name match among the
    candidate's offered skills, of 5 + priority bonus (high 3, medium 2,
    low 1) + level-compatibility bonus, clamped to at most 20; it is 0 when
    nothing matches; and wanting Python with high priority from a candidate
    who offers Python as an expert scores exactly 14. *)
Theorem calculateSkillMatchScore_formula :
  (forall currentUser otherUser : User,
      calculateSkillMatchScore currentUser otherUser
      =n= Num (Spec.skillMatchScore currentUser otherUser))
  /\ (forall currentUser otherUser : User,
      (forall w o, In w (skillsWanted currentUser) ->
                   In o (skillsOffered otherUser) ->
                   same_name (Offered.name o) (Wanted.name w) = false) ->
      calculateSkillMatchScore currentUser otherUser =n= Num 0)
  /\ calculateSkillMatchScore Scenario.currentUser Scenario.candidate
     =n= Num 14.
Proof.
  assert (H : forall currentUser otherUser : User,
             calculateSkillMatchScore currentUser otherUser
             =n= Num (Spec.skillMatchScore currentUser otherUser)).
  { intros currentUser otherUser. apply num_eq_Num.
    apply calculateSkillMatchScore_value. }
  split; [exact H|split].
  - intros currentUser otherUser Hnone.
    apply (num_eq_trans _ _ _ (H currentUser otherUser)).
    unfold Spec.skillMatchScore.
    rewrite (skillPairs_none _ _ Hnone). reflexivity.
  - reflexivity.
Qed.

(** C2, evidence: a learner of Python facing a candidate who offers
    JavaScript only has no match and scores 0. *)
Lemma calculateSkillMatchScore_formula_witness :
  calculateSkillMatchScore Scenario.learner Scenario.currentUser =n= Num 0.
Proof.
  apply (proj1 (proj2 calculateSkillMatchScore_formula)
           Scenario.learner Scenario.currentUser).
  intros w o [<-|[]] [<-|[]]. reflexivity.
Defined.

End SkillMatch.

(** ** The mutual-benefit score *)

Section MutualBenefit.

(** One turn of the loop adds the points of the match and counts it. *)
Lemma mutualBenefitStep_points (otherUser : User) (a : Q) (n : nat)
    (o : Offered.t) :
  exists q,
    mutualBenefitStep otherUser (Num a, n) o
    = (Num q, (n + List.length (Spec.mutualMatchOf otherUser o))%nat)
    /\ q == a + Spec.sum (map Spec.mutualPoints (Spec.mutualMatchOf otherUser o)).
Proof.
  unfold mutualBenefitStep, Spec.mutualMatchOf.
  destruct (find _ (skillsWanted otherUser)) as [w|].
  - rewrite calculateLevelCompatibility_enum.
    unfold Spec.mutualPoints;
      cbn [map Spec.sum fold_right fst snd List.length].
    rewrite Nat.add_1_r.
    destruct (Wanted.priority w); cbn [priority_string String.eqb Ascii.eqb
      Bool.eqb Spec.mutualPriorityBonus add arith];
      eexists; (split; [reflexivity | ring]).
  - exists a; split; [simpl; now rewrite Nat.add_0_r | simpl; ring].
Qed.

Lemma mutualBenefit_loop (otherUser : User) (os : list Offered.t)
    (a : Q) (n : nat) :
  exists q,
    fold_left (mutualBenefitStep otherUser) os (Num a, n)
    = (Num q, (n + List.length (flat_map (Spec.mutualMatchOf otherUser) os))%nat)
    /\ q == a + Spec.sum (map Spec.mutualPoints
                            (flat_map (Spec.mutualMatchOf otherUser) os)).
Proof.
  revert a n; induction os as [|o os IH]; intros a n.
  - exists a; split; [simpl; now rewrite Nat.add_0_r | simpl; ring].
  - destruct (mutualBenefitStep_points otherUser a n o) as (q1 & E1 & H1).
    destruct (IH q1 (n + List.length (Spec.mutualMatchOf otherUser o))%nat)
      as (q & E & H).
    exists q; split.
    + cbn [fold_left flat_map]. rewrite E1, E, length_app.
      now rewrite Nat.add_assoc.
    + cbn [flat_map]. rewrite map_app, sum_app, H, H1. ring.
Qed.

Lemma calculateMutualBenefitScore_value (currentUser otherUser : User) :
  exists q,
    calculateMutualBenefitScore currentUser otherUser = Num q
    /\ q == Spec.mutualBenefitScore currentUser otherUser.
Proof.
  unfold calculateMutualBenefitScore, Spec.mutualBenefitScore,
    Spec.mutualPairs, Spec.multiMatchBonus.
  destruct (mutualBenefit_loop otherUser (skillsOffered currentUser) 0 0)
    as (q & E & H).
  rewrite E. cbn [Nat.add].
  destruct (1 <? _)%nat; cbn [mul add sub arith Math_min];
    (eexists; split; [reflexivity|]); apply Qmin_eq;
    try reflexivity; rewrite H;
    unfold Z.sub; rewrite ?inject_Z_plus, ?inject_Z_opp; ring.
Qed.

Lemma mutualPoints_nonneg (m : Offered.t * Wanted.t) :
  0 <= Spec.mutualPoints m.
Proof.
  unfold Spec.mutualPoints.
  pose proof (levelCompatibility_range (Wanted.priority (snd m))
                (Offered.level (fst m))).
  destruct (Wanted.priority (snd m)); simpl Spec.mutualPriorityBonus; lra.
Qed.

Lemma multiMatchBonus_nonneg (n : nat) : 0 <= Spec.multiMatchBonus n.
Proof.
  unfold Spec.multiMatchBonus.
  destruct (Nat.ltb_spec 1 n) as [Hn|_]; [|discriminate].
  assert (0 <= inject_Z (Z.of_nat n - 1)).
  { change 0 with (inject_Z 0). rewrite <- Zle_Qle. lia. }
  lra.
Qed.

Lemma mutualBenefitScore_range (currentUser otherUser : User) :
  0 <= Spec.mutualBenefitScore currentUser otherUser <= 25.
Proof.
  unfold Spec.mutualBenefitScore. split.
  - apply Qmin_glb; [|discriminate].
    pose proof (multiMatchBonus_nonneg
                  (List.length (Spec.mutualPairs currentUser otherUser))).
    assert (0 <= Spec.sum (map Spec.mutualPoints
                             (Spec.mutualPairs currentUser otherUser))).
    { apply sum_nonneg, Forall_forall. intros q Hq.
      apply in_map_iff in Hq as (m & <- & _). apply mutualPoints_nonneg. }
    lra.
  - apply Q.le_min_r.
Qed.

(** C3.  calculateMutualBenefitScore is the sum, over the offered skills of
    the current user that have a case-insensitive name match among the
    candidate's wanted skills, of 8 + priority bonus (high 4, medium 2,
    low 1) + level-compatibility bonus, plus (matchCount - 1) * 5 when
    matchCount > 1, the total clamped to at most 25; and offering
    JavaScript at an advanced level to a candidate who wants it with medium
    priority, the only mutual match, scores exactly 13. *)
Theorem calculateMutualBenefitScore_formula :
  (forall currentUser otherUser : User,
      calculateMutualBenefitScore currentUser otherUser
      =n= Num (Spec.mutualBenefitScore currentUser otherUser))
  /\ calculateMutualBenefitScore Scenario.currentUser Scenario.candidate
     =n= Num 13.
Proof.
  split.
  - intros currentUser otherUser. apply num_eq_Num.
    apply calculateMutualBenefitScore_value.
  - reflexivity.
Qed.

End MutualBenefit.

(** ** The aggregate score *)

Section Aggregate.

Lemma calculateLocationScore_range (a b : option string) :
  exists q, calculateLocationScore a b = Num q /\ 0 <= q <= 10.
Proof.
  pose proof (calculateLocationScore_values a b) as H. simpl in H.
  destruct H as [<-|[<-|[<-|[<-|[]]]]]; eexists; (split; [reflexivity|]);
    split; discriminate.
Qed.

(** The quotient the source floors is the whole number of days. *)
Lemma floor_days (now : Z) (otherUser : User) :
  Qfloor ((inject_Z now - inject_Z (lastActive otherUser))
          / (1000 * 60 * 60 * 24))
  = Spec.daysSinceLastActive now otherUser.
Proof.
  unfold Spec.daysSinceLastActive.
  change (1000 * 60 * 60 * 24) with (inject_Z 86400000).
  unfold Qfloor, Qdiv, Qminus, Qplus, Qopp, Qmult, Qinv, inject_Z.
  cbn [Qnum Qden Pos.mul Z.opp]. f_equal. lia.
Qed.

(** The record calculateCompatibilityScore builds, in terms of the five
    numbers that go into it. *)
Lemma calculateCompatibilityScore_value (now : Z) (currentUser otherUser : User) :
  exists sm mb lb : Q,
    (sm == Spec.skillMatchScore currentUser otherUser)
    /\ (mb == Spec.mutualBenefitScore currentUser otherUser)
    /\ 0 <= lb <= 10
    /\ calculateCompatibilityScore now currentUser otherUser
       = let rb := Qmin (averageRating otherUser * 2) 10 in
         let ab :=
           Qmax 0 (10 - inject_Z (Spec.daysSinceLastActive now otherUser)) in
         {| totalScore :=
              Num (inject_Z
                     (Qfloor ((0 + sm * 0.4 + mb * 0.3 + rb * 0.15
                               + ab * 0.1 + lb * 0.05) * 100 + (1 # 2)))
                   / 100);
            breakdown :=
              {| skillMatch := Num sm;
                 mutualBenefit := Num mb;
                 ratingBonus := Num rb;
                 activityBonus := Num ab;
                 locationBonus := Num lb |} |}.
Proof.
  destruct (calculateSkillMatchScore_value currentUser otherUser)
    as (sm & Esm & Hsm).
  destruct (calculateMutualBenefitScore_value currentUser otherUser)
    as (mb & Emb & Hmb).
  destruct (calculateLocationScore_range (location currentUser)
              (location otherUser)) as (lb & Elb & Hlb).
  exists sm, mb, lb. repeat (split; [assumption|]).
  unfold calculateCompatibilityScore. rewrite Esm, Emb, Elb.
  rewrite <- floor_days. reflexivity.
Qed.

End Aggregate.

Section AggregateProperties.


Lemma round_hundredths_range (x : Q) :
  0 <= x <= 18.5 ->
  0 <= inject_Z (Qfloor (x * 100 + (1 # 2))) / 100 <= 18.5.
Proof.
  intros Hx.
  assert (Hk : (0 <= Qfloor (x * 100 + (1 # 2)) <= 1850)%Z).
  { split.
    - change 0%Z with (Qfloor 0). apply Qfloor_resp_le. lra.
    - change 1850%Z with (Qfloor 1850.5). apply Qfloor_resp_le. lra. }
  destruct Hk as [Hlo Hhi]. rewrite Zle_Qle in Hlo, Hhi.
  set (k := inject_Z (Qfloor (x * 100 + (1 # 2)))) in *.
  change (inject_Z 0) with 0 in Hlo. change (inject_Z 1850) with 1850 in Hhi.
  unfold Qdiv. change (/ 100) with 0.01. lra.
Qed.

Lemma ratingBonus_range (rating : Q) :
  0 <= rating <= 5 -> 0 <= Qmin (rating * 2) 10 <= 10.
Proof.
  intros H. split; [apply Qmin_glb; lra | apply Q.le_min_r].
Qed.

Lemma activityBonus_range (now : Z) (otherUser : User) :
  (lastActive otherUser <= now)%Z ->
  0 <= Qmax 0 (10 - inject_Z (Spec.daysSinceLastActive now otherUser)) <= 10.
Proof.
  intros H. apply Qmax_bounds; try lra.
  assert (Hd : (0 <= Spec.daysSinceLastActive now otherUser)%Z).
  { unfold Spec.daysSinceLastActive. apply Z.div_pos; lia. }
  rewrite Zle_Qle in Hd. change (inject_Z 0) with 0 in Hd. lra.
Qed.

(** C1.  When the candidate's average rating is in [0, 5] and the
    evaluation time is not before the candidate's last activity, the total
    score is a number in [0, 18.5] and the breakdown fields are numbers in
    [0, 20], [0, 25], [0, 10], [0, 10] and [0, 10]. *)
Theorem calculateCompatibilityScore_bounds
    (now : Z) (currentUser otherUser : User) :
  0 <= averageRating otherUser <= 5 ->
  (lastActive otherUser <= now)%Z ->
  let r := calculateCompatibilityScore now currentUser otherUser in
  within 0 18.5 (totalScore r)
  /\ within 0 20 (skillMatch (breakdown r))
  /\ within 0 25 (mutualBenefit (breakdown r))
  /\ within 0 10 (ratingBonus (breakdown r))
  /\ within 0 10 (activityBonus (breakdown r))
  /\ within 0 10 (locationBonus (breakdown r)).
Proof.
  intros Hrating Hactive r. subst r.
  destruct (calculateCompatibilityScore_value now currentUser otherUser)
    as (sm & mb & lb & Hsm & Hmb & Hlb & ->).
  pose proof (skillMatchScore_range currentUser otherUser) as Rsm.
  pose proof (mutualBenefitScore_range currentUser otherUser) as Rmb.
  pose proof (ratingBonus_range _ Hrating) as Rrb.
  pose proof (activityBonus_range _ _ Hactive) as Rab.
  rewrite <- Hsm in Rsm. rewrite <- Hmb in Rmb.
  cbn [totalScore breakdown skillMatch mutualBenefit ratingBonus
       activityBonus locationBonus within].
  set (rb := Qmin (averageRating otherUser * 2) 10) in *.
  set (ab := Qmax 0 (10 - inject_Z (Spec.daysSinceLastActive now otherUser)))
    in *.
  repeat split; try lra; apply round_hundredths_range; lra.
Qed.

(** C1, evidence: the scenario of the specification (rating 5, last active
    15 days before the evaluation time). *)
Lemma calculateCompatibilityScore_bounds_witness :
  0 <= averageRating Scenario.candidate <= 5
  /\ (lastActive Scenario.candidate <= Scenario.now)%Z
  /\ within 0 18.5
       (totalScore (calculateCompatibilityScore Scenario.now
                      Scenario.currentUser Scenario.candidate)).
Proof.
  assert (H1 : 0 <= averageRating Scenario.candidate <= 5)
    by (vm_compute; split; discriminate).
  assert (H2 : (lastActive Scenario.candidate <= Scenario.now)%Z)
    by (vm_compute; discriminate).
  split; [exact H1|]. split; [exact H2|].
  apply (calculateCompatibilityScore_bounds Scenario.now Scenario.currentUser
           Scenario.candidate H1 H2).
Defined.



(** C9.  The score is not symmetric: for a learner of Python and a teacher
    of Python who are alike in everything else, the score of the teacher as
    seen by the learner (7.8) differs from the score of the learner as seen
    by the teacher (7.6). *)
Theorem totalScore_not_symmetric :
  exists (now : Z) (A B : User),
    totalScore (calculateCompatibilityScore now A B) =n= Num 7.8
    /\ totalScore (calculateCompatibilityScore now B A) =n= Num 7.6
    /\ ~ (totalScore (calculateCompatibilityScore now A B)
          =n= totalScore (calculateCompatibilityScore now B A)).
Proof.
  exists Scenario.now, Scenario.learner, Scenario.teacher.
  split; [reflexivity|split; [reflexivity|]].
  vm_compute. discriminate.
Qed.

End AggregateProperties.

(** ** findSkillMatches *)

Section MatchExplainer.

(** A [forEach] that pushes the items [h x] collects them in order. *)
Lemma forEach_push {A B : Type} (g : list B -> A -> list B) (h : A -> list B) :
  (forall acc x, g acc x = (acc ++ h x)%list) ->
  forall l acc, fold_left g l acc = (acc ++ flat_map h l)%list.
Proof.
  intros Hg l; induction l as [|x l IH]; intros acc; simpl.
  - now rewrite app_nil_r.
  - now rewrite IH, Hg, <- app_assoc.
Qed.

Lemma youCanTeach_origin (currentUser otherUser : User) (n : string) :
  In n (map YouCanTeach.skill
          (youCanTeach (findSkillMatches currentUser otherUser))) ->
  exists o w,
    In o (skillsOffered currentUser) /\ In w (skillsWanted otherUser)
    /\ n = Offered.name o
    /\ same_name (Wanted.name w) (Offered.name o) = true.
Proof.
  unfold findSkillMatches; cbn [youCanTeach].
  rewrite (forEach_push _
    (fun o => match find (fun w => same_name (Wanted.name w) (Offered.name o))
                         (skillsWanted otherUser) with
              | Some w => [ YouCanTeach.Build (Offered.name o) (Offered.level o)
                              (Wanted.priority w) (Wanted.description w) ]
              | None => []
              end)).
  - cbn [app]. rewrite in_map_iff. intros (e & <- & He).
    apply in_flat_map in He as (o & Ho & He).
    destruct (find _ _) as [w|] eqn:Hf; [|contradiction].
    destruct He as [<-|[]]. apply find_some in Hf as [Hw Hs].
    exists o, w. auto.
  - intros acc o. destruct (find _ _); [reflexivity | now rewrite app_nil_r].
Qed.

Lemma theyCanTeach_origin (currentUser otherUser : User) (n : string) :
  In n (map TheyCanTeach.skill
          (theyCanTeach (findSkillMatches currentUser otherUser))) ->
  exists o w,
    In o (skillsOffered otherUser) /\ In w (skillsWanted currentUser)
    /\ n = Offered.name o
    /\ same_name (Wanted.name w) (Offered.name o) = true.
Proof.
  unfold findSkillMatches; cbn [theyCanTeach].
  rewrite (forEach_push _
    (fun o => match find (fun w => same_name (Wanted.name w) (Offered.name o))
                         (skillsWanted currentUser) with
              | Some w => [ TheyCanTeach.Build (Offered.name o) (Offered.level o)
                              (Wanted.priority w) (Wanted.description w) ]
              | None => []
              end)).
  - cbn [app]. rewrite in_map_iff. intros (e & <- & He).
    apply in_flat_map in He as (o & Ho & He).
    destruct (find _ _) as [w|] eqn:Hf; [|contradiction].
    destruct He as [<-|[]]. apply find_some in Hf as [Hw Hs].
    exists o, w. auto.
  - intros acc o. destruct (find _ _); [reflexivity | now rewrite app_nil_r].
Qed.





End MatchExplainer.

(** ** The ranking step *)

Section Ranking.

(** With numbers for scores, an element stays in front of another one
    exactly when its score is at least as high. *)
Lemma compare_scores (a b : ScoredUser) :
  Spec.hasScore a -> Spec.hasScore b ->
  (Qle_bool (SortCompare byScore a b) 0 = true
   <-> Spec.score_of b <= Spec.score_of a).
Proof.
  unfold Spec.hasScore, SortCompare, byScore, Spec.score_of.
  destruct (compatibilityScore a), (compatibilityScore b); try discriminate.
  intros _ _. cbn [sub arith]. rewrite Qle_bool_iff. split; intros; lra.
Qed.

Lemma insert_Permutation (x : ScoredUser) (l : list ScoredUser) :
  Permutation (insert byScore x l) (x :: l).
Proof.
  induction l as [|y l IH]; cbn [insert]; [reflexivity|].
  destruct (Qle_bool _ 0); [reflexivity|].
  rewrite IH. apply perm_swap.
Qed.

Lemma sort_Permutation (l : list ScoredUser) :
  Permutation (sort byScore l) l.
Proof.
  induction l as [|x l IH]; cbn [sort fold_right]; [reflexivity|].
  fold (sort byScore l). rewrite insert_Permutation. now constructor.
Qed.

Lemma sort_finite (l : list ScoredUser) :
  Forall Spec.hasScore l -> Forall Spec.hasScore (sort byScore l).
Proof.
  intros H. eapply Permutation_Forall; [|exact H].
  symmetry. apply sort_Permutation.
Qed.

Lemma insert_descending (x : ScoredUser) (l : list ScoredUser) :
  Spec.hasScore x -> Forall Spec.hasScore l ->
  Spec.descending l -> Spec.descending (insert byScore x l).
Proof.
  unfold Spec.descending. intros Hx Hl Hs.
  induction Hs as [|y l Hs IH Hy]; cbn [insert].
  - repeat constructor.
  - inversion Hl as [|? ? Fy Fl]; subst.
    destruct (Qle_bool _ 0) eqn:Hc.
    + apply compare_scores in Hc; [|assumption..].
      constructor; [now constructor|].
      constructor; [exact Hc|].
      eapply Forall_impl; [|exact Hy]. cbn beta. intros z Hz. lra.
    + constructor; [now apply IH|].
      eapply Permutation_Forall;
        [symmetry; apply insert_Permutation|].
      constructor; [|exact Hy].
      destruct (Qlt_le_dec (Spec.score_of x) (Spec.score_of y)) as [Hlt|Hle];
        [lra|].
      apply compare_scores in Hle; [congruence|assumption..].
Qed.

Lemma sort_descending (l : list ScoredUser) :
  Forall Spec.hasScore l -> Spec.descending (sort byScore l).
Proof.
  induction 1 as [|x l Hx Hl IH]; cbn [sort fold_right].
  - constructor.
  - apply insert_descending; [assumption | now apply sort_finite | exact IH].
Qed.

(** Inserting does not disturb the order of the candidates of one score. *)
Lemma insert_tied (q : Q) (x : ScoredUser) (l : list ScoredUser) :
  Spec.hasScore x -> Forall Spec.hasScore l ->
  Spec.tied q (insert byScore x l) = Spec.tied q (x :: l).
Proof.
  intros Hx Hl. induction Hl as [|y l Fy Fl IH]; cbn [insert]; [reflexivity|].
  destruct (Qle_bool _ 0) eqn:Hc; [reflexivity|].
  assert (Hlt : Spec.score_of x < Spec.score_of y).
  { destruct (Qlt_le_dec (Spec.score_of x) (Spec.score_of y)) as [Hlt|Hle];
      [exact Hlt|].
    apply compare_scores in Hle; [congruence|assumption..]. }
  unfold Spec.tied in *. cbn [filter] in *. rewrite IH.
  destruct (Qeq_bool (Spec.score_of y) q) eqn:Ey,
           (Qeq_bool (Spec.score_of x) q) eqn:Ex; try reflexivity.
  apply Qeq_bool_iff in Ey, Ex. lra.
Qed.

Lemma sort_tied (q : Q) (l : list ScoredUser) :
  Forall Spec.hasScore l -> Spec.tied q (sort byScore l) = Spec.tied q l.
Proof.
  induction 1 as [|x l Hx Hl IH]; cbn [sort fold_right]; [reflexivity|].
  fold (sort byScore l).
  rewrite insert_tied; [|assumption | now apply sort_finite].
  unfold Spec.tied in *. cbn [filter]. now rewrite IH.
Qed.

(** A list that is already ranked is left as it is. *)
Lemma sort_ranked (l : list ScoredUser) :
  Forall Spec.hasScore l -> Spec.descending l -> sort byScore l = l.
Proof.
  unfold Spec.descending. intros Hl Hs.
  induction Hs as [|x l Hs IH Hx]; [reflexivity|].
  inversion Hl as [|? ? Fx Fl]; subst.
  cbn [sort fold_right]. fold (sort byScore l). rewrite (IH Fl).
  destruct l as [|y l]; [reflexivity|]. cbn [insert].
  inversion Hx as [|? ? Hy _]; subst. inversion Fl; subst.
  apply compare_scores in Hy; [|assumption..]. now rewrite Hy.
Qed.

Lemma scoreUsers_finite (now : Z) (currentUser : User) (l : list User) :
  Forall Spec.hasScore (scoreUsers now currentUser l).
Proof.
  unfold scoreUsers. apply Forall_map, Forall_forall. intros u _.
  unfold Spec.hasScore; cbn [compatibilityScore].
  destruct (calculateCompatibilityScore_value now currentUser u)
    as (sm & mb & lb & _ & _ & _ & ->).
  reflexivity.
Qed.

(** C7.  The ranking step returns the scored candidates in non-increasing
    order of compatibilityScore, the candidates of equal score in their
    input order, and ranking the result again changes nothing; this holds
    for every list of candidates whose scores are numbers, and so for the
    list the handler scores. *)
Theorem ranking_sorted_stable :
  (forall scoredUsers : list ScoredUser,
      Forall Spec.hasScore scoredUsers ->
      let ranked := sortByScore scoredUsers in
      Permutation ranked scoredUsers
      /\ Spec.descending ranked
      /\ (forall q, Spec.tied q ranked = Spec.tied q scoredUsers)
      /\ sortByScore ranked = ranked)
  /\ (forall (now : Z) (currentUser : User) (potentialMatches : list User),
      let scoredUsers := scoreUsers now currentUser potentialMatches in
      let ranked := rankMatches now currentUser potentialMatches in
      Permutation ranked scoredUsers
      /\ Spec.descending ranked
      /\ (forall q, Spec.tied q ranked = Spec.tied q scoredUsers)
      /\ sortByScore ranked = ranked).
Proof.
  assert (H : forall scoredUsers : list ScoredUser,
             Forall Spec.hasScore scoredUsers ->
             let ranked := sortByScore scoredUsers in
             Permutation ranked scoredUsers
             /\ Spec.descending ranked
             /\ (forall q, Spec.tied q ranked = Spec.tied q scoredUsers)
             /\ sortByScore ranked = ranked).
  { intros l Hl ranked. subst ranked. unfold sortByScore.
    repeat split.
    - apply sort_Permutation.
    - now apply sort_descending.
    - intros q. now apply sort_tied.
    - apply sort_ranked; [now apply sort_finite | now apply sort_descending]. }
  split; [exact H|].
  intros now currentUser potentialMatches.
  apply H, scoreUsers_finite.
Qed.

(** C7, evidence: four candidates of the current user of the scenarios,
    two of them with the score 2.2. *)
Lemma ranking_sorted_stable_witness :
  Forall Spec.hasScore Scenario.scored
  /\ Spec.descending (sortByScore Scenario.scored)
  /\ Spec.tied 2.2 (sortByScore Scenario.scored)
     = Spec.tied 2.2 Scenario.scored.
Proof.
  assert (F : Forall Spec.hasScore Scenario.scored)
    by (repeat constructor).
  split; [exact F|].
  split; apply (proj1 ranking_sorted_stable Scenario.scored F).
Defined.

Example ranking_order :
  map user (sortByScore Scenario.scored)
  = [ Scenario.candidate; Scenario.teacher; Scenario.learner;
      Scenario.bystander ].
Proof. reflexivity. Qed.

End Ranking.

(* ================================================================== *)
(** * Further properties of the engine *)

(** ** What a match is worth *)

Section MatchWorth.

Lemma levelCompatibility_least (p : Priority) (l : Level) :
  0.5 <= Spec.levelCompatibility (priority_string p) (level_string l).
Proof. destruct p, l; vm_compute; discriminate. Qed.

Lemma skillPoints_least (m : Wanted.t * Offered.t) : 6.5 <= Spec.skillPoints m.
Proof.
  unfold Spec.skillPoints.
  pose proof (levelCompatibility_least (Wanted.priority (fst m))
                (Offered.level (snd m))).
  destruct (Wanted.priority (fst m)); simpl Spec.skillPriorityBonus; lra.
Qed.

Lemma mutualPoints_least (m : Offered.t * Wanted.t) :
  9.5 <= Spec.mutualPoints m.
Proof.
  unfold Spec.mutualPoints.
  pose proof (levelCompatibility_least (Wanted.priority (snd m))
                (Offered.level (fst m))).
  destruct (Wanted.priority (snd m)); simpl Spec.mutualPriorityBonus; lra.
Qed.

(** A sum of [n] terms that are each at least [c] is at least [n * c]. *)
Lemma sum_least (c : Q) (l : list Q) :
  Forall (fun q => c <= q) l ->
  inject_Z (Z.of_nat (List.length l)) * c <= Spec.sum l.
Proof.
  induction 1 as [|q l Hq _ IH].
  { cbn [List.length Spec.sum fold_right Z.of_nat].
    change (inject_Z 0) with 0. lra. }
  cbn [List.length Spec.sum fold_right]. rewrite Nat2Z.inj_succ.
  unfold Z.succ. rewrite inject_Z_plus. change (inject_Z 1) with 1.
  fold (Spec.sum l). lra.
Qed.

Lemma find_found {A : Type} (f : A -> bool) (l : list A) (x : A) :
  In x l -> f x = true -> exists y, find f l = Some y.
Proof.
  intros Hin Hf. destruct (find f l) as [y|] eqn:E; [now exists y|].
  rewrite (find_none _ _ E x Hin) in Hf. discriminate.
Qed.

Lemma skillPairs_teaches (currentUser otherUser : User) :
  Spec.skillPairs currentUser otherUser <> []
  <-> Facts.teaches otherUser currentUser.
Proof.
  split.
  - intros Hne.
    destruct (Spec.skillPairs currentUser otherUser) as [|m ms] eqn:E;
      [contradiction|].
    assert (Hin : In m (Spec.skillPairs currentUser otherUser))
      by (rewrite E; now left).
    unfold Spec.skillPairs in Hin. apply in_flat_map in Hin as (w & Hw & Hm).
    unfold Spec.skillMatchOf in Hm.
    destruct (find _ _) as [o|] eqn:Hf; [|contradiction].
    apply find_some in Hf as [Ho Hs]. exists o, w. auto.
  - intros (o & w & Ho & Hw & Hs) E.
    destruct (find_found
                (fun o => same_name (Offered.name o) (Wanted.name w))
                (skillsOffered otherUser) o Ho Hs) as (o' & Hf).
    assert (Hin : In (w, o') (Spec.skillPairs currentUser otherUser)).
    { unfold Spec.skillPairs. apply in_flat_map. exists w. split; [exact Hw|].
      unfold Spec.skillMatchOf. rewrite Hf. now left. }
    rewrite E in Hin. contradiction.
Qed.

Lemma mutualPairs_teaches (currentUser otherUser : User) :
  Spec.mutualPairs currentUser otherUser <> []
  <-> Facts.teaches currentUser otherUser.
Proof.
  split.
  - intros Hne.
    destruct (Spec.mutualPairs currentUser otherUser) as [|m ms] eqn:E;
      [contradiction|].
    assert (Hin : In m (Spec.mutualPairs currentUser otherUser))
      by (rewrite E; now left).
    unfold Spec.mutualPairs in Hin. apply in_flat_map in Hin as (o & Ho & Hm).
    unfold Spec.mutualMatchOf in Hm.
    destruct (find _ _) as [w|] eqn:Hf; [|contradiction].
    apply find_some in Hf as [Hw Hs]. exists o, w.
    rewrite same_name_sym. auto.
  - intros (o & w & Ho & Hw & Hs) E. rewrite same_name_sym in Hs.
    destruct (find_found
                (fun w => same_name (Wanted.name w) (Offered.name o))
                (skillsWanted otherUser) w Hw Hs) as (w' & Hf).
    assert (Hin : In (o, w') (Spec.mutualPairs currentUser otherUser)).
    { unfold Spec.mutualPairs. apply in_flat_map. exists o. split; [exact Ho|].
      unfold Spec.mutualMatchOf. rewrite Hf. now left. }
    rewrite E in Hin. contradiction.
Qed.

Lemma skillPoints_sum_least (currentUser otherUser : User) :
  inject_Z (Z.of_nat (List.length (Spec.skillPairs currentUser otherUser))) * 6.5
  <= Spec.sum (map Spec.skillPoints (Spec.skillPairs currentUser otherUser)).
Proof.
  rewrite <- (length_map Spec.skillPoints).
  apply sum_least, Forall_forall. intros q Hq.
  apply in_map_iff in Hq as (m & <- & _). apply skillPoints_least.
Qed.

Lemma mutualPoints_sum_least (currentUser otherUser : User) :
  inject_Z (Z.of_nat (List.length (Spec.mutualPairs currentUser otherUser))) * 9.5
  <= Spec.sum (map Spec.mutualPoints (Spec.mutualPairs currentUser otherUser)).
Proof.
  rewrite <- (length_map Spec.mutualPoints).
  apply sum_least, Forall_forall. intros q Hq.
  apply in_map_iff in Hq as (m & <- & _). apply mutualPoints_least.
Qed.

Lemma length_least {A : Type} (l : list A) :
  l <> [] -> 1 <= inject_Z (Z.of_nat (List.length l)).
Proof.
  destruct l as [|x l]; [contradiction|]. intros _.
  change 1 with (inject_Z 1). rewrite <- Zle_Qle. simpl List.length. lia.
Qed.

(** X1.  The skill-match score is at least 6.5 (and at most 20) exactly
    when the other user offers a skill the current user wants; otherwise it
    is 0: no score lies strictly between 0 and 6.5. *)
Theorem calculateSkillMatchScore_gap (currentUser otherUser : User) :
  (Facts.teaches otherUser currentUser
   <-> within 6.5 20 (calculateSkillMatchScore currentUser otherUser))
  /\ (~ Facts.teaches otherUser currentUser
      <-> calculateSkillMatchScore currentUser otherUser =n= Num 0).
Proof.
  destruct (calculateSkillMatchScore_value currentUser otherUser)
    as (q & -> & Hq).
  pose proof (skillPoints_sum_least currentUser otherUser) as Hsum.
  pose proof (skillPairs_teaches currentUser otherUser) as Ht.
  unfold Spec.skillMatchScore in Hq. cbn [within num_eq].
  destruct (Spec.skillPairs currentUser otherUser) as [|m ms] eqn:E.
  - assert (Hz : q == 0) by (rewrite Hq; reflexivity).
    assert (Hn : ~ Facts.teaches otherUser currentUser).
    { intros H. apply Ht in H. now apply H. }
    repeat split; try tauto; intros; try lra.
  - assert (Hy : Facts.teaches otherUser currentUser)
      by (apply Ht; discriminate).
    assert (Hl : 1 <= inject_Z (Z.of_nat (List.length (m :: ms))))
      by (apply length_least; discriminate).
    assert (Hb : 6.5 <= q <= 20).
    { rewrite Hq. split; [apply Qmin_glb; [|discriminate] | apply Q.le_min_r].
      lra. }
    repeat split; try tauto; intros; try lra.
Qed.

(** X2.  The mutual-benefit score is at least 9.5 (and at most 25) exactly
    when the current user offers a skill the other user wants; otherwise it
    is 0. *)
Theorem calculateMutualBenefitScore_gap (currentUser otherUser : User) :
  (Facts.teaches currentUser otherUser
   <-> within 9.5 25 (calculateMutualBenefitScore currentUser otherUser))
  /\ (~ Facts.teaches currentUser otherUser
      <-> calculateMutualBenefitScore currentUser otherUser =n= Num 0).
Proof.
  destruct (calculateMutualBenefitScore_value currentUser otherUser)
    as (q & -> & Hq).
  pose proof (mutualPoints_sum_least currentUser otherUser) as Hsum.
  pose proof (mutualPairs_teaches currentUser otherUser) as Ht.
  pose proof (multiMatchBonus_nonneg
                (List.length (Spec.mutualPairs currentUser otherUser))) as Hb0.
  unfold Spec.mutualBenefitScore in Hq. cbn [within num_eq]. cbv zeta in Hq.
  destruct (Spec.mutualPairs currentUser otherUser) as [|m ms] eqn:E.
  - assert (Hz : q == 0) by (rewrite Hq; reflexivity).
    assert (Hn : ~ Facts.teaches currentUser otherUser).
    { intros H. apply Ht in H. now apply H. }
    repeat split; try tauto; intros; try lra.
  - assert (Hy : Facts.teaches currentUser otherUser)
      by (apply Ht; discriminate).
    assert (Hl : 1 <= inject_Z (Z.of_nat (List.length (m :: ms))))
      by (apply length_least; discriminate).
    assert (Hb : 9.5 <= q <= 25).
    { rewrite Hq. split; [apply Qmin_glb; [|discriminate] | apply Q.le_min_r].
      lra. }
    repeat split; try tauto; intros; try lra.
Qed.

End MatchWorth.

Section Saturation.

(** X1, evidence: the candidate of the scenarios offers Python, which the
    current user wants. *)
Lemma calculateSkillMatchScore_gap_witness :
  Facts.teaches Scenario.candidate Scenario.currentUser
  /\ within 6.5 20
       (calculateSkillMatchScore Scenario.currentUser Scenario.candidate).
Proof.
  assert (H : Facts.teaches Scenario.candidate Scenario.currentUser).
  { exists (Offered.Build "Python" expert None),
           (Wanted.Build "Python" high None).
    repeat split; now left. }
  split; [exact H|].
  apply (proj1 (calculateSkillMatchScore_gap Scenario.currentUser
                  Scenario.candidate)), H.
Defined.

(** X2, evidence: the current user of the scenarios offers JavaScript,
    which the candidate wants. *)
Lemma calculateMutualBenefitScore_gap_witness :
  Facts.teaches Scenario.currentUser Scenario.candidate
  /\ within 9.5 25
       (calculateMutualBenefitScore Scenario.currentUser Scenario.candidate).
Proof.
  assert (H : Facts.teaches Scenario.currentUser Scenario.candidate).
  { exists (Offered.Build "JavaScript" advanced None),
           (Wanted.Build "JavaScript" medium None).
    repeat split; now left. }
  split; [exact H|].
  apply (proj1 (calculateMutualBenefitScore_gap Scenario.currentUser
                  Scenario.candidate)), H.
Defined.

Lemma Qmin_cap (p c : Q) : c <= p -> Qmin p c == c.
Proof. intros H. destruct (Q.min_spec p c) as [[H' ->]|[H' ->]]; lra. Qed.

(** X3.  Four wanted skills with a match are always enough for the cap:
    the skill-match score is then exactly 20, whatever the priorities and
    levels. *)
Theorem calculateSkillMatchScore_saturates (currentUser otherUser : User) :
  (4 <= List.length (Spec.skillPairs currentUser otherUser))%nat ->
  calculateSkillMatchScore currentUser otherUser =n= Num 20.
Proof.
  intros Hlen.
  destruct (calculateSkillMatchScore_value currentUser otherUser)
    as (q & -> & Hq).
  pose proof (skillPoints_sum_least currentUser otherUser) as Hsum.
  assert (Hl : 4 <= inject_Z (Z.of_nat (List.length
                    (Spec.skillPairs currentUser otherUser)))).
  { change 4 with (inject_Z 4). rewrite <- Zle_Qle. lia. }
  cbn [num_eq]. rewrite Hq. unfold Spec.skillMatchScore.
  apply Qmin_cap. lra.
Qed.

(** X4.  Three offered skills the other user wants are always enough for
    the cap: the mutual-benefit score is then exactly 25. *)
Theorem calculateMutualBenefitScore_saturates (currentUser otherUser : User) :
  (3 <= List.length (Spec.mutualPairs currentUser otherUser))%nat ->
  calculateMutualBenefitScore currentUser otherUser =n= Num 25.
Proof.
  intros Hlen.
  destruct (calculateMutualBenefitScore_value currentUser otherUser)
    as (q & -> & Hq).
  pose proof (mutualPoints_sum_least currentUser otherUser) as Hsum.
  pose proof (multiMatchBonus_nonneg
                (List.length (Spec.mutualPairs currentUser otherUser))) as Hb.
  assert (Hl : 3 <= inject_Z (Z.of_nat (List.length
                    (Spec.mutualPairs currentUser otherUser)))).
  { change 3 with (inject_Z 3). rewrite <- Zle_Qle. lia. }
  cbn [num_eq]. rewrite Hq. unfold Spec.mutualBenefitScore. cbv zeta.
  apply Qmin_cap. lra.
Qed.

End Saturation.

Section SaturationEvidence.

(** X3, evidence: the apprentice wants the mentor's four skills. *)
Lemma calculateSkillMatchScore_saturates_witness :
  (4 <= List.length (Spec.skillPairs Examples.apprentice Examples.mentor))%nat
  /\ calculateSkillMatchScore Examples.apprentice Examples.mentor =n= Num 20.
Proof.
  assert (H : (4 <= List.length
                     (Spec.skillPairs Examples.apprentice Examples.mentor))%nat)
    by (vm_compute; lia).
  split; [exact H|].
  apply (calculateSkillMatchScore_saturates Examples.apprentice
           Examples.mentor H).
Defined.

(** X4, evidence: the mentor offers four skills the apprentice wants. *)
Lemma calculateMutualBenefitScore_saturates_witness :
  (3 <= List.length (Spec.mutualPairs Examples.mentor Examples.apprentice))%nat
  /\ calculateMutualBenefitScore Examples.mentor Examples.apprentice
     =n= Num 25.
Proof.
  assert (H : (3 <= List.length
                     (Spec.mutualPairs Examples.mentor Examples.apprentice))%nat)
    by (vm_compute; lia).
  split; [exact H|].
  apply (calculateMutualBenefitScore_saturates Examples.mentor
           Examples.apprentice H).
Defined.

End SaturationEvidence.

(** ** Adding skills *)

Section MoreSkills.

Lemma find_app {A : Type} (f : A -> bool) (l l' : list A) :
  find f (l ++ l')%list
  = match find f l with Some x => Some x | None => find f l' end.
Proof.
  induction l as [|x l IH]; [reflexivity|].
  simpl. destruct (f x); [reflexivity | exact IH].
Qed.

(** Sums and lengths over the matches of a list grow when every element
    keeps or gains a match and the list is extended. *)
Lemma matches_grow {A B : Type} (pts : B -> Q) (f g : A -> list B)
    (l e : list A) :
  (forall b, 0 <= pts b) ->
  (forall x, Spec.sum (map pts (f x)) <= Spec.sum (map pts (g x))
             /\ (List.length (f x) <= List.length (g x))%nat) ->
  Spec.sum (map pts (flat_map f l))
  <= Spec.sum (map pts (flat_map g (l ++ e)%list))
  /\ (List.length (flat_map f l) <= List.length (flat_map g (l ++ e)%list))%nat.
Proof.
  intros Hpts Hfg. induction l as [|x l [IHs IHl]].
  - cbn [flat_map app map Spec.sum fold_right List.length]. split; [|lia].
    apply sum_nonneg, Forall_forall. intros q Hq.
    apply in_map_iff in Hq as (b & <- & _). apply Hpts.
  - destruct (Hfg x) as [Hs Hl].
    cbn [flat_map app]. rewrite !map_app, !sum_app, !length_app.
    split; [lra | lia].
Qed.

Lemma skillMatchOf_grows (otherUser : User) (offered : list Offered.t)
    (wanted : list Wanted.t) (w : Wanted.t) :
  Spec.sum (map Spec.skillPoints (Spec.skillMatchOf otherUser w))
  <= Spec.sum (map Spec.skillPoints
                 (Spec.skillMatchOf
                    (Facts.withMoreSkills otherUser offered wanted) w))
  /\ (List.length (Spec.skillMatchOf otherUser w)
      <= List.length (Spec.skillMatchOf
                        (Facts.withMoreSkills otherUser offered wanted) w))%nat.
Proof.
  unfold Spec.skillMatchOf, Facts.withMoreSkills; cbn [skillsOffered].
  rewrite find_app. destruct (find _ (skillsOffered otherUser)) as [o|].
  - split; [lra | lia].
  - destruct (find _ offered) as [o|]; cbn [map Spec.sum fold_right List.length].
    + pose proof (skillPoints_nonneg (w, o)). split; [lra | lia].
    + split; [lra | lia].
Qed.

Lemma mutualMatchOf_grows (otherUser : User) (offered : list Offered.t)
    (wanted : list Wanted.t) (o : Offered.t) :
  Spec.sum (map Spec.mutualPoints (Spec.mutualMatchOf otherUser o))
  <= Spec.sum (map Spec.mutualPoints
                 (Spec.mutualMatchOf
                    (Facts.withMoreSkills otherUser offered wanted) o))
  /\ (List.length (Spec.mutualMatchOf otherUser o)
      <= List.length (Spec.mutualMatchOf
                        (Facts.withMoreSkills otherUser offered wanted) o))%nat.
Proof.
  unfold Spec.mutualMatchOf, Facts.withMoreSkills; cbn [skillsWanted].
  rewrite find_app. destruct (find _ (skillsWanted otherUser)) as [w|].
  - split; [lra | lia].
  - destruct (find _ wanted) as [w|]; cbn [map Spec.sum fold_right List.length].
    + pose proof (mutualPoints_nonneg (o, w)). split; [lra | lia].
    + split; [lra | lia].
Qed.

Lemma multiMatchBonus_grows (n m : nat) :
  (n <= m)%nat -> Spec.multiMatchBonus n <= Spec.multiMatchBonus m.
Proof.
  intros H. unfold Spec.multiMatchBonus.
  destruct (Nat.ltb_spec 1 n), (Nat.ltb_spec 1 m); try lia.
  - assert (inject_Z (Z.of_nat n - 1) <= inject_Z (Z.of_nat m - 1))
      by (rewrite <- Zle_Qle; lia).
    lra.
  - apply (multiMatchBonus_nonneg m) || idtac.
    assert (0 <= inject_Z (Z.of_nat m - 1)).
    { change 0 with (inject_Z 0). rewrite <- Zle_Qle. lia. }
    lra.
  - lra.
Qed.

Lemma Qmin_grows (p q c : Q) : p <= q -> Qmin p c <= Qmin q c.
Proof.
  intros H. apply Qmin_glb; [|apply Q.le_min_r].
  pose proof (Q.le_min_l p c). lra.
Qed.

Lemma skillMatchScore_grows (currentUser otherUser : User)
    (o1 o2 : list Offered.t) (w1 w2 : list Wanted.t) :
  Spec.skillMatchScore currentUser otherUser
  <= Spec.skillMatchScore (Facts.withMoreSkills currentUser o1 w1)
                          (Facts.withMoreSkills otherUser o2 w2).
Proof.
  unfold Spec.skillMatchScore, Spec.skillPairs. apply Qmin_grows.
  cbn [Facts.withMoreSkills skillsWanted].
  apply (matches_grow Spec.skillPoints); [apply skillPoints_nonneg|].
  intros w. apply skillMatchOf_grows.
Qed.

Lemma mutualBenefitScore_grows (currentUser otherUser : User)
    (o1 o2 : list Offered.t) (w1 w2 : list Wanted.t) :
  Spec.mutualBenefitScore currentUser otherUser
  <= Spec.mutualBenefitScore (Facts.withMoreSkills currentUser o1 w1)
                             (Facts.withMoreSkills otherUser o2 w2).
Proof.
  unfold Spec.mutualBenefitScore, Spec.mutualPairs. cbv zeta.
  apply Qmin_grows.
  cbn [Facts.withMoreSkills skillsOffered].
  destruct (matches_grow Spec.mutualPoints
              (Spec.mutualMatchOf otherUser)
              (Spec.mutualMatchOf (Facts.withMoreSkills otherUser o2 w2))
              (skillsOffered currentUser) o1 mutualPoints_nonneg
              (mutualMatchOf_grows otherUser o2 w2)) as [Hs Hl].
  apply multiMatchBonus_grows in Hl. lra.
Qed.

(** X5.  Skills added at the end of the lists of either user never lower
    the score: the skill-match score, the mutual-benefit score and the
    total score of the extended profiles are at least those of the
    original ones (an earlier entry of a list keeps its match, because
    [find] takes the first). *)
Theorem calculateCompatibilityScore_more_skills
    (now : Z) (currentUser otherUser : User)
    (o1 o2 : list Offered.t) (w1 w2 : list Wanted.t) :
  let r := calculateCompatibilityScore now currentUser otherUser in
  let r' := calculateCompatibilityScore now
              (Facts.withMoreSkills currentUser o1 w1)
              (Facts.withMoreSkills otherUser o2 w2) in
  Facts.num_le (skillMatch (breakdown r)) (skillMatch (breakdown r'))
  /\ Facts.num_le (mutualBenefit (breakdown r)) (mutualBenefit (breakdown r'))
  /\ Facts.num_le (totalScore r) (totalScore r').
Proof.
  intros r r'. subst r r'.
  pose proof (skillMatchScore_grows currentUser otherUser o1 o2 w1 w2) as Gs.
  pose proof (mutualBenefitScore_grows currentUser otherUser o1 o2 w1 w2) as Gm.
  unfold calculateCompatibilityScore.
  destruct (calculateSkillMatchScore_value currentUser otherUser)
    as (sm & -> & Hsm).
  destruct (calculateMutualBenefitScore_value currentUser otherUser)
    as (mb & -> & Hmb).
  destruct (calculateSkillMatchScore_value
              (Facts.withMoreSkills currentUser o1 w1)
              (Facts.withMoreSkills otherUser o2 w2)) as (sm' & -> & Hsm').
  destruct (calculateMutualBenefitScore_value
              (Facts.withMoreSkills currentUser o1 w1)
              (Facts.withMoreSkills otherUser o2 w2)) as (mb' & -> & Hmb').
  cbn [Facts.withMoreSkills location averageRating lastActive].
  destruct (calculateLocationScore_range (location currentUser)
              (location otherUser)) as (lb & -> & _).
  cbn [totalScore breakdown skillMatch mutualBenefit Facts.num_le add mul sub
       div arith Math_min Math_max Math_round Math_floor].
  change (Qeq_bool (1000 * 60 * 60 * 24) 0) with false. cbv iota.
  cbn [totalScore breakdown skillMatch mutualBenefit Facts.num_le add mul sub
       div arith Math_min Math_max Math_round Math_floor].
  change (Qeq_bool 100 0) with false. cbv iota.
  rewrite <- Hsm, <- Hsm' in Gs. rewrite <- Hmb, <- Hmb' in Gm.
  repeat split; try assumption.
  unfold Qdiv. apply Qmult_le_compat_r; [|discriminate].
  rewrite <- Zle_Qle. apply Qfloor_resp_le. lra.
Qed.

End MoreSkills.

(** ** Upper and lower case *)

Section LowerCase.

Lemma lower_unit_idem (c : ascii) :
  Str.lower_unit (Str.lower_unit c) = Str.lower_unit c.
Proof. destruct c as [[] [] [] [] [] [] [] []]; reflexivity. Qed.

Lemma toLowerCase_idem (s : string) :
  Str.toLowerCase (Str.toLowerCase s) = Str.toLowerCase s.
Proof.
  induction s as [|c s IH]; [reflexivity|].
  simpl. now rewrite lower_unit_idem, IH.
Qed.

Lemma same_name_lower (x y : string) :
  same_name (Str.toLowerCase x) (Str.toLowerCase y) = same_name x y.
Proof. unfold same_name. now rewrite !toLowerCase_idem. Qed.

Lemma find_map {A B : Type} (g : A -> B) (p : B -> bool) (l : list A) :
  find p (map g l) = option_map g (find (fun x => p (g x)) l).
Proof.
  induction l as [|x l IH]; [reflexivity|].
  simpl. destruct (p (g x)); [reflexivity | exact IH].
Qed.

Lemma find_same {A : Type} (f g : A -> bool) (l : list A) :
  (forall x, f x = g x) -> find f l = find g l.
Proof.
  intros H. induction l as [|x l IH]; [reflexivity|].
  simpl. now rewrite H, IH.
Qed.

Lemma fold_left_map {A B S : Type} (f : S -> B -> S) (f' : S -> A -> S)
    (g : A -> B) (l : list A) :
  (forall s x, f s (g x) = f' s x) ->
  forall s, fold_left f (map g l) s = fold_left f' l s.
Proof.
  intros H. induction l as [|x l IH]; intros s; [reflexivity|].
  simpl. now rewrite H, IH.
Qed.

Lemma skillMatchStep_lowerCased (otherUser : User) (score : number)
    (w : Wanted.t) :
  skillMatchStep (Facts.lowerCased otherUser) score (Facts.lowerWanted w)
  = skillMatchStep otherUser score w.
Proof.
  unfold skillMatchStep. cbn [Facts.lowerCased skillsOffered].
  rewrite find_map.
  cbn [Facts.lowerOffered Facts.lowerWanted Offered.name Wanted.name
       Wanted.priority].
  erewrite find_same; [|intros o; apply same_name_lower].
  now destruct (find _ (skillsOffered otherUser)).
Qed.

Lemma mutualBenefitStep_lowerCased (otherUser : User) (st : number * nat)
    (o : Offered.t) :
  mutualBenefitStep (Facts.lowerCased otherUser) st (Facts.lowerOffered o)
  = mutualBenefitStep otherUser st o.
Proof.
  unfold mutualBenefitStep. destruct st as [score n].
  cbn [Facts.lowerCased skillsWanted].
  rewrite find_map.
  cbn [Facts.lowerOffered Facts.lowerWanted Offered.name Wanted.name
       Offered.level].
  erewrite find_same; [|intros w; apply same_name_lower].
  now destruct (find _ (skillsWanted otherUser)).
Qed.

Lemma toLowerCase_empty (s : string) :
  String.eqb (Str.toLowerCase s) "" = String.eqb s "".
Proof. now destruct s. Qed.

Lemma calculateLocationScore_lowerCased (a b : option string) :
  calculateLocationScore (option_map Str.toLowerCase a)
                         (option_map Str.toLowerCase b)
  = calculateLocationScore a b.
Proof.
  unfold calculateLocationScore.
  destruct a as [x|], b as [y|]; cbn [option_map missing];
    rewrite ?orb_true_r; try reflexivity.
  now rewrite !toLowerCase_empty, !toLowerCase_idem.
Qed.

(** X6.  Matching ignores case throughout: writing every skill name and
    the location of both users in lower case changes neither the total
    score nor any field of the breakdown. *)
Theorem calculateCompatibilityScore_ignores_case
    (now : Z) (currentUser otherUser : User) :
  calculateCompatibilityScore now (Facts.lowerCased currentUser)
                              (Facts.lowerCased otherUser)
  = calculateCompatibilityScore now currentUser otherUser.
Proof.
  assert (Hs : calculateSkillMatchScore (Facts.lowerCased currentUser)
                 (Facts.lowerCased otherUser)
               = calculateSkillMatchScore currentUser otherUser).
  { unfold calculateSkillMatchScore. cbn [Facts.lowerCased skillsWanted].
    now rewrite (fold_left_map _ (skillMatchStep otherUser) _ _
                   (skillMatchStep_lowerCased otherUser)). }
  assert (Hm : calculateMutualBenefitScore (Facts.lowerCased currentUser)
                 (Facts.lowerCased otherUser)
               = calculateMutualBenefitScore currentUser otherUser).
  { unfold calculateMutualBenefitScore. cbn [Facts.lowerCased skillsOffered].
    now rewrite (fold_left_map _ (mutualBenefitStep otherUser) _ _
                   (mutualBenefitStep_lowerCased otherUser)). }
  unfold calculateCompatibilityScore. rewrite Hs, Hm.
  cbn [Facts.lowerCased location averageRating lastActive].
  now rewrite calculateLocationScore_lowerCased.
Qed.

End LowerCase.

(** ** The activity bonus *)

Section Activity.

Lemma activityBonus_value (now : Z) (currentUser otherUser : User) :
  activityBonus (breakdown (calculateCompatibilityScore now currentUser
                              otherUser))
  = Num (Qmax 0 (10 - inject_Z (Spec.daysSinceLastActive now otherUser))).
Proof.
  destruct (calculateCompatibilityScore_value now currentUser otherUser)
    as (sm & mb & lb & _ & _ & _ & ->).
  reflexivity.
Qed.

Lemma Qmax_inject_Z (a b : Z) :
  Qmax (inject_Z a) (inject_Z b) == inject_Z (Z.max a b).
Proof.
  destruct (Z.max_spec a b) as [[H ->]|[H ->]];
    [apply Q.max_r | apply Q.max_l]; rewrite <- Zle_Qle; lia.
Qed.

(** X7.  When [d] whole days lie between the candidate's last activity and
    the evaluation time (d days <= now - lastActive < d + 1 days), the
    activity bonus is max(0, 10 - d): 10 within the first day, one point
    less per further day, 0 from the tenth day on. *)
Theorem activityBonus_whole_days
    (now : Z) (currentUser otherUser : User) (d : Z) :
  (d * 86400000 <= now - lastActive otherUser < (d + 1) * 86400000)%Z ->
  activityBonus (breakdown (calculateCompatibilityScore now currentUser
                              otherUser))
  =n= Num (inject_Z (Z.max 0 (10 - d))).
Proof.
  intros Hd. rewrite activityBonus_value. cbn [num_eq].
  assert (E : Spec.daysSinceLastActive now otherUser = d).
  { unfold Spec.daysSinceLastActive. symmetry.
    apply (Z.div_unique _ _ _ (now - lastActive otherUser - d * 86400000));
      lia. }
  rewrite E, <- Qmax_inject_Z.
  unfold Z.sub. rewrite inject_Z_plus, inject_Z_opp. reflexivity.
Qed.

(** X7, evidence: the candidate of the scenarios, last active 15 days
    before the evaluation time, gets no activity bonus. *)
Lemma activityBonus_whole_days_witness :
  activityBonus (breakdown (calculateCompatibilityScore Scenario.now
                              Scenario.currentUser Scenario.candidate))
  =n= Num 0.
Proof.
  apply (activityBonus_whole_days Scenario.now Scenario.currentUser
           Scenario.candidate 15).
  vm_compute. split; [discriminate | reflexivity].
Defined.

(** X8.  A candidate whose last activity lies after the evaluation time
    gets an activity bonus of at least 11, above the cap of 10 that holds
    otherwise: the cap rests on lastActive <= now. *)
Theorem activityBonus_future (now : Z) (currentUser otherUser : User) :
  (now < lastActive otherUser)%Z ->
  within 11 (10 + inject_Z (lastActive otherUser - now))
    (activityBonus (breakdown (calculateCompatibilityScore now currentUser
                                 otherUser))).
Proof.
  intros Hf. rewrite activityBonus_value. cbn [within].
  set (d := Spec.daysSinceLastActive now otherUser).
  assert (Hd : (now - lastActive otherUser <= d <= -1)%Z).
  { subst d. unfold Spec.daysSinceLastActive. split.
    - apply Z.div_le_lower_bound; lia.
    - apply Z.lt_succ_r. apply Z.div_lt_upper_bound; lia. }
  destruct Hd as [Hlo Hhi]. rewrite Zle_Qle in Hlo, Hhi.
  unfold Z.sub in *. rewrite inject_Z_plus, inject_Z_opp in *.
  change (inject_Z (-1)) with (-1) in Hhi.
  destruct (Q.max_spec 0 (10 - inject_Z d)) as [[H ->]|[H ->]]; split; lra.
Qed.

(** X8, evidence: last active one millisecond after the evaluation. *)
Lemma activityBonus_future_witness :
  within 11 11
    (activityBonus
       (breakdown
          (calculateCompatibilityScore (Scenario.now - 1) Scenario.currentUser
             Scenario.teacher))).
Proof.
  apply (activityBonus_future (Scenario.now - 1) Scenario.currentUser
           Scenario.teacher).
  reflexivity.
Defined.

End Activity.

(** ** One location inside the other *)

Section LocationContainment.

(** The first segment of a string is the beginning of that string. *)
Lemma first_segment_prefix (s : string) :
  exists post, s = (item (Str.split "," s) 0 ++ post)%string.
Proof.
  pose proof (split_join s) as H.
  pose proof (split_not_nil "," s) as Hn.
  unfold item. destruct (Str.split "," s) as [|seg segs]; [contradiction|].
  cbn [nth]. destruct segs as [|seg' segs].
  - exists EmptyString. simpl in H. rewrite <- H.
    clear. induction seg as [|c seg IH]; [reflexivity|].
    simpl. now rewrite <- IH.
  - cbn [Spec.join] in H. eexists. symmetry. exact H.
Qed.

Lemma append_assoc (a b c : string) :
  ((a ++ b) ++ c = a ++ (b ++ c))%string.
Proof. induction a as [|x a IH]; [reflexivity|]. simpl. now rewrite IH. Qed.

Lemma first_segment_within (s t : string) :
  Spec.substring s t -> Spec.substring (item (Str.split "," s) 0) t.
Proof.
  intros (pre & post & ->).
  destruct (first_segment_prefix s) as (rest & Hs).
  exists pre, (rest ++ post)%string.
  rewrite Hs at 1. now rewrite append_assoc.
Qed.

(** X9.  When one location occurs inside the other one (compared in lower
    case, the two not being equal), the score is 8: "Berlin" against
    "Berlin, Germany", but also "York" against "New York". *)
Theorem calculateLocationScore_contained (x y : string) :
  x <> "" -> y <> "" ->
  Str.toLowerCase x <> Str.toLowerCase y ->
  Spec.substring (Str.toLowerCase x) (Str.toLowerCase y) ->
  calculateLocationScore (Some x) (Some y) = Num 8
  /\ calculateLocationScore (Some y) (Some x) = Num 8.
Proof.
  intros Hx Hy Hne Hsub.
  assert (Hm : missing (Some x) || missing (Some y) = false).
  { apply orb_false_iff; split; apply missing_false; eauto. }
  assert (Hm' : missing (Some y) || missing (Some x) = false)
    by now rewrite orb_comm.
  apply first_segment_within, includes_substring in Hsub.
  apply String.eqb_neq in Hne.
  unfold calculateLocationScore. rewrite Hm, Hm'. cbv zeta.
  rewrite (String.eqb_sym (Str.toLowerCase y)), Hne, Hsub.
  now rewrite orb_true_r.
Qed.

End LocationContainment.

Section LocationContainmentEvidence.

(** X9, evidence: "Berlin" against "Berlin, Germany". *)
Lemma calculateLocationScore_contained_witness :
  calculateLocationScore (Some "Berlin") (Some "Berlin, Germany") = Num 8
  /\ calculateLocationScore (Some "Berlin, Germany") (Some "Berlin") = Num 8.
Proof.
  apply (calculateLocationScore_contained "Berlin" "Berlin, Germany");
    try discriminate.
  exists EmptyString, ", germany". reflexivity.
Defined.

End LocationContainmentEvidence.

(** ** The explainer and the scorers *)

Section ExplainerAndScorers.

Lemma map_flat_map {A B C : Type} (f : B -> C) (h : A -> list B) (l : list A) :
  map f (flat_map h l) = flat_map (fun x => map f (h x)) l.
Proof.
  induction l as [|x l IH]; [reflexivity|].
  simpl. now rewrite map_app, IH.
Qed.

Lemma flat_map_same {A B : Type} (h h' : A -> list B) (l : list A) :
  (forall x, h x = h' x) -> flat_map h l = flat_map h' l.
Proof.
  intros H. induction l as [|x l IH]; [reflexivity|].
  simpl. now rewrite H, IH.
Qed.

Lemma youCanTeach_lessons (currentUser otherUser : User) :
  map Facts.ofYouCanTeach (youCanTeach (findSkillMatches currentUser otherUser))
  = Facts.lessons currentUser otherUser.
Proof.
  unfold findSkillMatches; cbn [youCanTeach].
  rewrite (forEach_push _
    (fun o => match find (fun w => same_name (Wanted.name w) (Offered.name o))
                         (skillsWanted otherUser) with
              | Some w => [ YouCanTeach.Build (Offered.name o) (Offered.level o)
                              (Wanted.priority w) (Wanted.description w) ]
              | None => []
              end)).
  - cbn [app]. rewrite map_flat_map. unfold Facts.lessons.
    apply flat_map_same. intros o. now destruct (find _ _).
  - intros acc o. destruct (find _ _); [reflexivity | now rewrite app_nil_r].
Qed.

Lemma theyCanTeach_lessons (currentUser otherUser : User) :
  map Facts.ofTheyCanTeach
      (theyCanTeach (findSkillMatches currentUser otherUser))
  = Facts.lessons otherUser currentUser.
Proof.
  unfold findSkillMatches; cbn [theyCanTeach].
  rewrite (forEach_push _
    (fun o => match find (fun w => same_name (Wanted.name w) (Offered.name o))
                         (skillsWanted currentUser) with
              | Some w => [ TheyCanTeach.Build (Offered.name o) (Offered.level o)
                              (Wanted.priority w) (Wanted.description w) ]
              | None => []
              end)).
  - cbn [app]. rewrite map_flat_map. unfold Facts.lessons.
    apply flat_map_same. intros o. now destruct (find _ _).
  - intros acc o. destruct (find _ _); [reflexivity | now rewrite app_nil_r].
Qed.

(** X10.  The two users see the same lessons: what findSkillMatches lists
    under youCanTeach for one of them is, entry by entry (skill, teacher's
    level, learner's priority and description), what it lists under
    theyCanTeach for the other. *)
Theorem findSkillMatches_mirror (A B : User) :
  map Facts.ofYouCanTeach (youCanTeach (findSkillMatches A B))
  = map Facts.ofTheyCanTeach (theyCanTeach (findSkillMatches B A)).
Proof.
  rewrite youCanTeach_lessons.
  rewrite theyCanTeach_lessons.
  reflexivity.
Qed.

Lemma lessons_mutualPairs (teacher learner : User) :
  List.length (Facts.lessons teacher learner)
  = List.length (Spec.mutualPairs teacher learner).
Proof.
  unfold Facts.lessons, Spec.mutualPairs, Spec.mutualMatchOf.
  induction (skillsOffered teacher) as [|o os IH]; [reflexivity|].
  cbn [flat_map]. rewrite !length_app. f_equal; [|exact IH].
  now destruct (find _ _).
Qed.

Lemma nil_length {A : Type} (l : list A) : l = [] <-> List.length l = 0%nat.
Proof. destruct l; simpl; split; congruence. Qed.

Lemma skillScore_zero (currentUser otherUser : User) :
  calculateSkillMatchScore currentUser otherUser =n= Num 0
  <-> ~ Facts.teaches otherUser currentUser.
Proof.
  rewrite <- skillPairs_teaches.
  destruct (calculateSkillMatchScore_value currentUser otherUser)
    as (q & -> & Hq).
  pose proof (skillPoints_sum_least currentUser otherUser) as Hsum.
  unfold Spec.skillMatchScore in Hq. cbn [num_eq].
  destruct (Spec.skillPairs currentUser otherUser) as [|m ms] eqn:E.
  - split; [intros _ H; now apply H | intros _; rewrite Hq; reflexivity].
  - assert (Hl : 1 <= inject_Z (Z.of_nat (List.length (m :: ms))))
      by (apply length_least; discriminate).
    assert (Hb : 6.5 <= q).
    { rewrite Hq. apply Qmin_glb; [lra | discriminate]. }
    split; [intros; lra | intros H; exfalso; apply H; discriminate].
Qed.

Lemma mutualScore_zero (currentUser otherUser : User) :
  calculateMutualBenefitScore currentUser otherUser =n= Num 0
  <-> ~ Facts.teaches currentUser otherUser.
Proof.
  rewrite <- mutualPairs_teaches.
  destruct (calculateMutualBenefitScore_value currentUser otherUser)
    as (q & -> & Hq).
  pose proof (mutualPoints_sum_least currentUser otherUser) as Hsum.
  pose proof (multiMatchBonus_nonneg
                (List.length (Spec.mutualPairs currentUser otherUser))) as Hb0.
  unfold Spec.mutualBenefitScore in Hq. cbn [num_eq]. cbv zeta in Hq.
  destruct (Spec.mutualPairs currentUser otherUser) as [|m ms] eqn:E.
  - split; [intros _ H; now apply H | intros _; rewrite Hq; reflexivity].
  - assert (Hl : 1 <= inject_Z (Z.of_nat (List.length (m :: ms))))
      by (apply length_least; discriminate).
    assert (Hb : 9.5 <= q).
    { rewrite Hq. apply Qmin_glb; [lra | discriminate]. }
    split; [intros; lra | intros H; exfalso; apply H; discriminate].
Qed.

Lemma lessons_teaches (teacher learner : User) :
  Facts.lessons teacher learner = [] <-> ~ Facts.teaches teacher learner.
Proof.
  rewrite nil_length, lessons_mutualPairs, <- nil_length,
    <- mutualPairs_teaches.
  destruct (Spec.mutualPairs teacher learner); split; try congruence.
  intros H. exfalso. apply H. discriminate.
Qed.

Lemma map_nil {A B : Type} (f : A -> B) (l : list A) : map f l = [] <-> l = [].
Proof. destruct l; simpl; split; congruence. Qed.

(** X11.  The explainer and the scorers agree: youCanTeach is empty exactly
    when the mutual-benefit score is 0, theyCanTeach is empty exactly when
    the skill-match score is 0, and the number of youCanTeach entries is
    the number of matches the mutual-benefit score counts. *)
Theorem findSkillMatches_agrees_with_scores (currentUser otherUser : User) :
  (youCanTeach (findSkillMatches currentUser otherUser) = []
   <-> calculateMutualBenefitScore currentUser otherUser =n= Num 0)
  /\ (theyCanTeach (findSkillMatches currentUser otherUser) = []
      <-> calculateSkillMatchScore currentUser otherUser =n= Num 0)
  /\ List.length (youCanTeach (findSkillMatches currentUser otherUser))
     = List.length (Spec.mutualPairs currentUser otherUser).
Proof.
  repeat split.
  - rewrite mutualScore_zero, <- lessons_teaches, <- youCanTeach_lessons.
    intros ->. reflexivity.
  - rewrite mutualScore_zero, <- lessons_teaches, <- youCanTeach_lessons.
    apply map_nil.
  - rewrite skillScore_zero, <- lessons_teaches, <- theyCanTeach_lessons.
    intros ->. reflexivity.
  - rewrite skillScore_zero, <- lessons_teaches, <- theyCanTeach_lessons.
    apply map_nil.
  - rewrite <- lessons_mutualPairs, <- youCanTeach_lessons.
    now rewrite length_map.
Qed.

End ExplainerAndScorers.

(* ================================================================== *)
(** * The handlers around the engine *)

(** ** Decimal texts *)

Section DecimalTexts.







Lemma to_uint_not_Nil (n : N) : N.to_uint n <> Decimal.Nil.
Proof.
  destruct n as [|p]; [discriminate|].
  apply DecimalPos.Unsigned.to_uint_nonnil.
Qed.

(** The text of a natural number. *)
Lemma ToString_of_N (n : N) :
  Page.ToString (Z.of_N n)
  = DecimalString.NilEmpty.string_of_uint (N.to_uint n).
Proof.
  pose proof (to_uint_not_Nil n) as H.
  unfold Page.ToString. destruct n as [|p]; [reflexivity|].
  simpl in *. unfold DecimalString.NilZero.string_of_uint.
  now destruct (Pos.to_uint p).
Qed.


Lemma StringToNumber_text (n : N) :
  Page.StringToNumber (Page.ToString (Z.of_N n)) = Some (Z.of_N n).
Proof.
  rewrite ToString_of_N.
  pose proof (to_uint_not_Nil n) as Hn.
  unfold Page.StringToNumber, DecimalString.NilZero.int_of_string.
  destruct (DecimalString.NilEmpty.string_of_uint (N.to_uint n))
    as [|c s] eqn:E.
  - destruct (N.to_uint n); try contradiction; discriminate.
  - assert (Hc : Ascii.eqb c "-" = false).
    { destruct (N.to_uint n); try contradiction; simpl in E;
        injection E as <- _; reflexivity. }
    rewrite Hc, <- E. unfold DecimalString.NilZero.uint_of_string.
    rewrite E, <- E, DecimalString.NilEmpty.usu. cbn [option_map Z.of_int].
    unfold Z.of_uint.
    change (Pos.of_uint (N.to_uint n)) with (N.of_uint (N.to_uint n)).
    now rewrite DecimalN.Unsigned.of_to.
Qed.

End DecimalTexts.

(** ** The pages of the ranking *)

Section Pages.

Context {A : Type}.

Lemma firstn_enough (n : nat) (l : list A) :
  (List.length l <= n)%nat -> firstn n l = l.
Proof. apply firstn_all2. Qed.

(** A slice between two indices that are not negative. *)
Lemma slice_window (l : list A) (s e : Z) (v : Page.value) :
  (0 <= s)%Z -> (0 <= e)%Z -> Page.ToNumber v = Some e ->
  Page.slice l (Page.VInt s) v
  = firstn (Z.to_nat e - Z.to_nat s) (skipn (Z.to_nat s) l).
Proof.
  intros Hs He Hv. unfold Page.slice, Page.relativeIndex.
  rewrite Hv. cbn [Page.ToNumber].
  destruct (Z.ltb_spec s 0), (Z.ltb_spec e 0); try lia.
  destruct (Nat.le_gt_cases (List.length l) (Z.to_nat s)) as [Hout|Hin].
  - rewrite (Nat.min_r (Z.to_nat s)) by lia.
    rewrite (skipn_all2 (n := List.length l) l) by lia.
    rewrite (skipn_all2 (n := Z.to_nat s) l) by lia.
    now rewrite !firstn_nil.
  - rewrite (Nat.min_l (Z.to_nat s)) by lia.
    destruct (Nat.le_gt_cases (Z.to_nat e) (List.length l)) as [He'|He'].
    + now rewrite Nat.min_l by lia.
    + rewrite Nat.min_r by lia.
      rewrite !firstn_enough; try reflexivity; rewrite length_skipn; lia.
Qed.

Lemma ToNumber_destructure (n : N) (default : Z) :
  Page.ToNumber (Page.destructure (Page.Numeral n) default) = Some (Z.of_N n).
Proof. apply StringToNumber_text. Qed.

(** Without a limit, page [p] is the [p]-th block of ten. *)
Lemma default_page (l : list A) (p : N) :
  (1 <= p)%N ->
  Page.data (Page.paginate (Page.Numeral p) Page.Absent l)
  = firstn 10 (skipn (10 * (N.to_nat p - 1)) l).
Proof.
  intros Hp. unfold Page.paginate. cbn [Page.data].
  unfold Page.times, Page.minus.
  rewrite ToNumber_destructure. cbn [Page.destructure Page.ToNumber Page.plus].
  rewrite (slice_window l ((Z.of_N p - 1) * 10) ((Z.of_N p - 1) * 10 + 10));
    try lia; [|reflexivity].
  f_equal; [lia|]. f_equal. lia.
Qed.

Lemma first_page (l : list A) :
  Page.data (Page.paginate Page.Absent Page.Absent l) = firstn 10 l.
Proof.
  unfold Page.paginate. cbn [Page.data].
  unfold Page.times, Page.minus.
  cbn [Page.destructure Page.ToNumber Page.plus].
  now rewrite (slice_window l 0 10) by (reflexivity || lia).
Qed.

Lemma firstn_add (n m : nat) (l : list A) :
  (firstn n l ++ firstn m (skipn n l))%list = firstn (n + m) l.
Proof.
  revert l; induction n as [|n IH]; intros l; [reflexivity|].
  destruct l as [|x l]; [now rewrite !firstn_nil|].
  simpl. now rewrite IH.
Qed.

Lemma blocks_of_ten (l : list A) (n : nat) :
  List.concat (map (fun p => firstn 10 (skipn (10 * (p - 1)) l)) (seq 1 n))
  = firstn (10 * n) l.
Proof.
  induction n as [|n IH]; [reflexivity|].
  rewrite seq_S, map_app, concat_app, IH. cbn [map List.concat].
  rewrite app_nil_r. replace (10 * (1 + n - 1))%nat with (10 * n)%nat by lia.
  rewrite firstn_add. f_equal. lia.
Qed.

(** X12.  Without a limit parameter the pages tile the ranking: page 1 is
    what a request without a page gets, every page holds at most ten
    entries, and the pages 1 to totalPages, one after the other, are the
    whole sorted list, each candidate once and in order. *)
Theorem matches_pages_tile (scoredUsers : list A) (n : nat) :
  Page.totalPages
    (Page.pagination (Page.paginate Page.Absent Page.Absent scoredUsers))
  = Some (Z.of_nat n) ->
  Page.data (Page.paginate Page.Absent Page.Absent scoredUsers)
  = Page.data (Page.paginate (Page.Numeral 1) Page.Absent scoredUsers)
  /\ (forall p, (1 <= p)%N ->
        (List.length
           (Page.data (Page.paginate (Page.Numeral p) Page.Absent scoredUsers))
         <= 10)%nat)
  /\ List.concat
       (map (fun p =>
               Page.data
                 (Page.paginate (Page.Numeral (N.of_nat p)) Page.Absent
                    scoredUsers))
            (seq 1 n))
     = scoredUsers.
Proof.
  intros Hn. cbn in Hn. injection Hn as Hn.
  split; [|split].
  - now rewrite first_page, default_page by lia.
  - intros p Hp. rewrite default_page by exact Hp. apply firstn_le_length.
  - rewrite (map_ext_in _
               (fun p => firstn 10 (skipn (10 * (p - 1)) scoredUsers))).
    + rewrite blocks_of_ten. apply firstn_enough.
      assert (H : (Z.of_nat (List.length scoredUsers) <= 10 * Z.of_nat n)%Z).
      { rewrite <- Hn.
        pose proof (Z.mul_div_le (- Z.of_nat (List.length scoredUsers)) 10).
        lia. }
      lia.
    + intros p Hp. apply in_seq in Hp.
      rewrite default_page by lia. do 3 f_equal. lia.
Qed.

End Pages.

Section ExplicitLimit.

Context {A : Type}.




End ExplicitLimit.

Section PagesInRankOrder.

Lemma In_skipn {A : Type} (x : A) (n : nat) (l : list A) :
  In x (skipn n l) -> In x l.
Proof.
  revert l; induction n as [|n IH]; intros l; [trivial|].
  destruct l as [|y l]; [trivial|]. simpl. auto.
Qed.

Lemma In_firstn {A : Type} (x : A) (n : nat) (l : list A) :
  In x (firstn n l) -> In x l.
Proof.
  revert l; induction n as [|n IH]; intros l; [contradiction|].
  destruct l as [|y l]; [trivial|]. simpl. intuition.
Qed.

(** In a sorted list every element of a front part is related to every
    element of the rest. *)
Lemma StronglySorted_front_rest {A : Type} (R : A -> A -> Prop)
    (front rest : list A) (u v : A) :
  StronglySorted R (front ++ rest)%list ->
  In u front -> In v rest -> R u v.
Proof.
  induction front as [|x front IH]; [contradiction|].
  cbn [app]. intros Hs [->|Hu] Hv.
  - apply StronglySorted_inv in Hs as [_ Hall].
    rewrite Forall_forall in Hall. apply Hall, in_or_app. now right.
  - apply StronglySorted_inv in Hs as [Hs _]. now apply IH.
Qed.

Lemma StronglySorted_parts {A : Type} (R : A -> A -> Prop)
    (front rest : list A) :
  StronglySorted R (front ++ rest)%list ->
  StronglySorted R front /\ StronglySorted R rest.
Proof.
  induction front as [|x front IH]; cbn [app]; intros Hs.
  - split; [constructor | exact Hs].
  - apply StronglySorted_inv in Hs as [Hs Hall].
    destruct (IH Hs) as [Hf Hr]. split; [|exact Hr].
    constructor; [exact Hf|]. rewrite Forall_forall in *.
    intros y Hy. apply Hall, in_or_app. now left.
Qed.

Lemma block_in_front {A : Type} (x : A) (a n : nat) (l : list A) :
  In x (firstn n (skipn a l)) -> In x (firstn (a + n) l).
Proof.
  intros H. rewrite <- firstn_add. apply in_or_app. now right.
Qed.

Lemma block_in_rest {A : Type} (x : A) (a b n : nat) (l : list A) :
  (a <= b)%nat -> In x (firstn n (skipn b l)) -> In x (skipn a l).
Proof.
  intros Hab H. apply In_firstn in H.
  replace b with ((b - a) + a)%nat in H by lia.
  rewrite <- skipn_skipn in H. now apply In_skipn in H.
Qed.

(** X14.  Without a limit parameter the pages of GET /api/users/matches
    follow the ranking: each page is in non-increasing order of score, and
    every candidate on a page scores at least as high as every candidate on
    a later page. *)
Theorem getMatches_pages_in_rank_order
    (now : Z) (currentUser : User) (potentialMatches : list User)
    (p q : N) (pageP pageQ : Page.t ScoredUser) :
  (1 <= p)%N -> (p < q)%N ->
  getMatches now (Some currentUser) potentialMatches (Page.Numeral p)
             Page.Absent = Some pageP ->
  getMatches now (Some currentUser) potentialMatches (Page.Numeral q)
             Page.Absent = Some pageQ ->
  Spec.descending (Page.data pageP)
  /\ forall u v, In u (Page.data pageP) -> In v (Page.data pageQ) ->
                 Spec.score_of v <= Spec.score_of u.
Proof.
  intros Hp Hpq [= <-] [= <-].
  set (ranked := rankMatches now currentUser potentialMatches).
  assert (Hd : Spec.descending ranked).
  { apply sort_descending, scoreUsers_finite. }
  rewrite !default_page by lia.
  split.
  - unfold Spec.descending in *.
    rewrite <- (firstn_skipn (10 * (N.to_nat p - 1)) ranked) in Hd.
    apply StronglySorted_parts in Hd as [_ Hd].
    rewrite <- (firstn_skipn 10 (skipn _ ranked)) in Hd.
    now apply StronglySorted_parts in Hd as [Hd _].
  - intros u v Hu Hv.
    apply block_in_front in Hu.
    apply (block_in_rest v (10 * (N.to_nat p - 1) + 10)) in Hv; [|lia].
    unfold Spec.descending in Hd.
    rewrite <- (firstn_skipn (10 * (N.to_nat p - 1) + 10) ranked) in Hd.
    exact (StronglySorted_front_rest _ _ _ u v Hd Hu Hv).
Qed.

End PagesInRankOrder.

(** ** The list of offered skills *)

Section OfferedSkillNames.

Lemma ascii_compare_lt_trans (a b c : ascii) :
  Ascii.compare a b = Lt -> Ascii.compare b c = Lt -> Ascii.compare a c = Lt.
Proof.
  unfold Ascii.compare. rewrite !N.compare_lt_iff. apply N.lt_trans.
Qed.

Lemma string_compare_lt_trans (a b c : string) :
  String.compare a b = Lt -> String.compare b c = Lt ->
  String.compare a c = Lt.
Proof.
  revert b c; induction a as [|x a IH]; intros [|y b] [|z c]; simpl;
    try discriminate; try reflexivity.
  destruct (Ascii.compare x y) eqn:Exy; try discriminate;
    destruct (Ascii.compare y z) eqn:Eyz; try discriminate; intros Hab Hbc.
  - apply Ascii.compare_eq_iff in Exy, Eyz. subst.
    replace (Ascii.compare z z) with Eq
      by (symmetry; unfold Ascii.compare; apply N.compare_refl).
    now apply (IH b).
  - apply Ascii.compare_eq_iff in Exy. subst. now rewrite Eyz.
  - apply Ascii.compare_eq_iff in Eyz. subst. now rewrite Exy.
  - now rewrite (ascii_compare_lt_trans _ _ _ Exy Eyz).
Qed.

Lemma ltb_trans (a b c : string) :
  String.ltb a b = true -> String.ltb b c = true -> String.ltb a c = true.
Proof.
  unfold String.ltb.
  destruct (String.compare a b) eqn:Eab; try discriminate.
  destruct (String.compare b c) eqn:Ebc; try discriminate.
  now rewrite (string_compare_lt_trans _ _ _ Eab Ebc).
Qed.

(** Two different strings are ordered one way or the other. *)
Lemma ltb_connected (a b : string) :
  a <> b -> String.ltb a b = false -> String.ltb b a = true.
Proof.
  unfold String.ltb. rewrite (String.compare_antisym b a).
  destruct (String.compare a b) eqn:E; try discriminate; try reflexivity.
  apply String.compare_eq_iff in E. contradiction.
Qed.

Lemma ltb_irrefl (a : string) : String.ltb a a = false.
Proof.
  unfold String.ltb.
  destruct (String.compare a a) eqn:E; try reflexivity.
  pose proof (String.compare_antisym a a) as H. rewrite E in H. discriminate.
Qed.

(** Where [sort()] puts a new string. *)
Lemma defaultCompare_stays (x y : string) :
  Qle_bool (SortCompare defaultCompare x y) 0 = negb (String.ltb y x).
Proof.
  unfold SortCompare, defaultCompare.
  destruct (String.ltb x y) eqn:Exy.
  - destruct (String.ltb y x) eqn:Eyx; [|reflexivity].
    pose proof (ltb_trans _ _ _ Exy Eyx) as H.
    rewrite ltb_irrefl in H. discriminate.
  - now destruct (String.ltb y x).
Qed.

Lemma insert_names_Permutation (x : string) (l : list string) :
  Permutation (insert defaultCompare x l) (x :: l).
Proof.
  induction l as [|y l IH]; cbn [insert]; [reflexivity|].
  destruct (Qle_bool _ 0); [reflexivity|].
  rewrite IH. apply perm_swap.
Qed.

Lemma sort_names_Permutation (l : list string) :
  Permutation (sort defaultCompare l) l.
Proof.
  induction l as [|x l IH]; cbn [sort fold_right]; [reflexivity|].
  fold (sort defaultCompare l). rewrite insert_names_Permutation.
  now constructor.
Qed.

Lemma insert_names_sorted (x : string) (l : list string) :
  ~ In x l ->
  StronglySorted (fun a b => String.ltb a b = true) l ->
  StronglySorted (fun a b => String.ltb a b = true) (insert defaultCompare x l).
Proof.
  intros Hx Hs. induction Hs as [|y l Hs IH Hy]; cbn [insert].
  - repeat constructor.
  - rewrite defaultCompare_stays.
    assert (Hxy : x <> y) by (intros ->; apply Hx; now left).
    destruct (String.ltb y x) eqn:Eyx; cbn [negb].
    + constructor; [apply IH; intros H; apply Hx; now right|].
      eapply Permutation_Forall;
        [symmetry; apply insert_names_Permutation|].
      constructor; assumption.
    + assert (Exy : String.ltb x y = true).
      { apply ltb_connected; [congruence | exact Eyx]. }
      constructor; [now constructor|].
      constructor; [exact Exy|].
      eapply Forall_impl; [|exact Hy]. cbn beta. intros z Hz.
      now apply (ltb_trans _ y).
Qed.

Lemma sort_names_sorted (l : list string) :
  NoDup l ->
  StronglySorted (fun a b => String.ltb a b = true) (sort defaultCompare l).
Proof.
  induction 1 as [|x l Hx Hl IH]; cbn [sort fold_right]; [constructor|].
  apply insert_names_sorted; [|exact IH].
  intros H. apply Hx.
  exact (Permutation_in _ (sort_names_Permutation l) H).
Qed.

Lemma includesName_In (acc : list string) (n : string) :
  includesName acc n = true <-> In n acc.
Proof.
  unfold includesName. rewrite existsb_exists. split.
  - intros (x & Hx & E). apply String.eqb_eq in E. now subst.
  - intros H. exists n. split; [exact H | apply String.eqb_refl].
Qed.

(** What the inner [forEach] keeps true. *)
Lemma collect_user (skills : list Offered.t) (acc : list string) :
  NoDup acc ->
  let acc' :=
    fold_left
      (fun acc skill =>
         if negb (includesName acc (Offered.name skill))
         then push acc (Offered.name skill)
         else acc)
      skills acc in
  NoDup acc'
  /\ forall n, In n acc'
               <-> In n acc \/ exists o, In o skills /\ Offered.name o = n.
Proof.
  revert acc; induction skills as [|o skills IH]; intros acc Hacc; cbn zeta.
  - split; [exact Hacc|]. intros n. cbn [fold_left]. split; [auto|].
    intros [H|(o & [] & _)]; exact H.
  - cbn [fold_left].
    destruct (includesName acc (Offered.name o)) eqn:E; cbn [negb].
    + apply includesName_In in E.
      destruct (IH acc Hacc) as [Hn Hin]. split; [exact Hn|].
      intros n. rewrite Hin. split.
      * intros [H|(o' & Ho' & <-)]; [now left|].
        right. exists o'. split; [now right | reflexivity].
      * intros [H|(o' & [<-|Ho'] & <-)]; [now left | now left |].
        right. now exists o'.
    + assert (Hnot : ~ In (Offered.name o) acc).
      { intros H. apply includesName_In in H. congruence. }
      assert (Hacc' : NoDup (push acc (Offered.name o))).
      { unfold push. apply NoDup_app; [exact Hacc | repeat constructor; auto |].
        intros x Hx [<-|[]]. contradiction. }
      destruct (IH _ Hacc') as [Hn Hin]. split; [exact Hn|].
      intros n. rewrite Hin. unfold push. rewrite in_app_iff. split.
      * intros [[H|[<-|[]]]|(o' & Ho' & <-)].
        -- now left.
        -- right. exists o. split; [now left | reflexivity].
        -- right. exists o'. split; [now right | reflexivity].
      * intros [H|(o' & [<-|Ho'] & <-)].
        -- left. now left.
        -- left. right. now left.
        -- right. now exists o'.
Qed.

Lemma collectSkills_from (users : list User) (acc : list string) :
  NoDup acc ->
  let acc' :=
    fold_left
      (fun acc user =>
         fold_left
           (fun acc skill =>
              if negb (includesName acc (Offered.name skill))
              then push acc (Offered.name skill)
              else acc)
           (skillsOffered user) acc)
      users acc in
  NoDup acc'
  /\ forall n, In n acc'
               <-> In n acc
                   \/ exists u o, In u users /\ In o (skillsOffered u)
                                  /\ Offered.name o = n.
Proof.
  revert acc; induction users as [|u users IH]; intros acc Hacc; cbn zeta.
  - split; [exact Hacc|]. intros n. cbn [fold_left]. split; [auto|].
    intros [H|(u & o & [] & _)]; exact H.
  - cbn [fold_left].
    destruct (collect_user (skillsOffered u) acc Hacc) as [Hn Hin].
    cbn zeta in Hn, Hin.
    destruct (IH _ Hn) as [Hn' Hin']. split; [exact Hn'|].
    intros n. rewrite Hin', Hin. split.
    + intros [[H|(o & Ho & <-)]|(u' & o & Hu' & Ho & <-)].
      * now left.
      * right. exists u, o. repeat split; [now left | exact Ho].
      * right. exists u', o. repeat split; [now right | exact Ho].
    + intros [H|(u' & o & [<-|Hu'] & Ho & <-)].
      * left. now left.
      * left. right. now exists o.
      * right. now exists u', o.
Qed.

(** X15.  The list of GET /api/users/skills/offered holds exactly the
    names of the skills the given users offer, in strictly increasing order
    of their code units: sorted, and no name twice.  (Names are told apart
    by their exact spelling, "Python" and "python" are two entries.) *)
Theorem offeredSkillNames_sorted_distinct (users : list User) :
  StronglySorted (fun a b => String.ltb a b = true) (offeredSkillNames users)
  /\ forall n,
       In n (offeredSkillNames users)
       <-> exists u o, In u users /\ In o (skillsOffered u)
                       /\ Offered.name o = n.
Proof.
  destruct (collectSkills_from users [] (NoDup_nil _)) as [Hn Hin].
  cbn zeta in Hn, Hin. fold (collectSkills users) in Hn, Hin.
  unfold offeredSkillNames. split.
  - now apply sort_names_sorted.
  - intros n. split.
    + intros H.
      apply (Permutation_in _ (sort_names_Permutation _)) in H.
      apply Hin in H as [[]|H]. exact H.
    + intros H.
      apply (Permutation_in _ (Permutation_sym (sort_names_Permutation _))).
      apply Hin. now right.
Qed.

End OfferedSkillNames.

(** ** The average rating *)

Section AverageRating.

Lemma rating_total (l : list Rating.t) (a : Q) :
  exists q,
    fold_left (fun sum rating => add sum (Num (Rating.rating rating))) l (Num a)
    = Num q
    /\ q == a + Spec.sum (map Rating.rating l).
Proof.
  revert a; induction l as [|r l IH]; intros a.
  - exists a; split; [reflexivity | simpl; ring].
  - destruct (IH (a + Rating.rating r)) as (q & E & H).
    exists q; split; [exact E|]. rewrite H. simpl. ring.
Qed.

Lemma sum_between (lo hi : Q) (l : list Q) :
  Forall (fun q => lo <= q <= hi) l ->
  inject_Z (Z.of_nat (List.length l)) * lo <= Spec.sum l
  /\ Spec.sum l <= inject_Z (Z.of_nat (List.length l)) * hi.
Proof.
  induction 1 as [|q l Hq _ IH].
  { cbn [List.length Spec.sum fold_right Z.of_nat].
    change (inject_Z 0) with 0. lra. }
  cbn [List.length Spec.sum fold_right]. rewrite Nat2Z.inj_succ.
  unfold Z.succ. rewrite inject_Z_plus. change (inject_Z 1) with 1.
  fold (Spec.sum l). lra.
Qed.

Lemma average_written (allRatings : list Rating.t) (userId : Id) :
  let ratings :=
    filter (fun r => String.eqb (Rating.rated r) userId) allRatings in
  let mean :=
    Spec.sum (map Rating.rating ratings)
    / inject_Z (Z.of_nat (List.length ratings)) in
  ratings <> [] ->
  Forall (fun r => 1 <= Rating.rating r <= 5) ratings ->
  exists (r : Q) (k : Z),
    updateUserRating allRatings userId
    = Some {| RatingUpdate.averageRating := Num r;
              RatingUpdate.totalRatings := List.length ratings |}
    /\ r == inject_Z k / 10
    /\ 1 <= r <= 5
    /\ r - 0.05 <= mean /\ mean < r + 0.05.
Proof.
  intros ratings mean Hne Hall.
  unfold updateUserRating. fold ratings.
  assert (Hlen : (0 < List.length ratings)%nat)
    by (destruct ratings; [contradiction | simpl; lia]).
  apply Nat.ltb_lt in Hlen as Hlt. rewrite Hlt.
  destruct (rating_total ratings 0) as (total & -> & Htotal).
  set (n := inject_Z (Z.of_nat (List.length ratings))) in *.
  assert (Hn : 1 <= n).
  { subst n. change 1 with (inject_Z 1). rewrite <- Zle_Qle. lia. }
  assert (Hnz : Qeq_bool n 0 = false).
  { apply not_true_iff_false. rewrite Qeq_bool_iff. lra. }
  cbn [div]. rewrite Hnz. cbn [mul arith Math_round div].
  change (Qeq_bool 10 0) with false. cbv iota.
  set (m := total / n).
  set (k := Qfloor (m * 10 + (1 # 2))).
  exists (inject_Z k / 10), k.
  split; [reflexivity|]. split; [reflexivity|].
  assert (Hmean : m == mean).
  { unfold m, mean. fold n. rewrite Htotal. field. lra. }
  assert (Hrange : 1 <= mean <= 5).
  { pose proof (sum_between 1 5 (map Rating.rating ratings)) as Hs.
    rewrite length_map in Hs. fold n in Hs.
    destruct Hs as [Hlo Hhi]; [now apply Forall_map|].
    unfold mean. fold n. split.
    - apply Qle_shift_div_l; lra.
    - apply Qle_shift_div_r; lra. }
  clearbody m mean.
  pose proof (Qfloor_le (m * 10 + (1 # 2))) as Hlo.
  pose proof (Qlt_floor (m * 10 + (1 # 2))) as Hhi.
  fold k in Hlo, Hhi. rewrite inject_Z_plus in Hhi.
  change (inject_Z 1) with 1 in Hhi.
  assert (Hk1 : (Qfloor 10 <= k)%Z) by (apply Qfloor_resp_le; lra).
  assert (Hk2 : (k <= Qfloor 50.5)%Z) by (apply Qfloor_resp_le; lra).
  change (Qfloor 10) with 10%Z in Hk1. change (Qfloor 50.5) with 50%Z in Hk2.
  rewrite Zle_Qle in Hk1, Hk2.
  change (inject_Z 10) with 10 in Hk1. change (inject_Z 50) with 50 in Hk2.
  clearbody k.
  unfold Qdiv. change (/ 10) with 0.1.
  repeat split; lra.
Qed.


End AverageRating.

(** ** The life of a swap request *)

Section SwapLifecycle.

Lemma status_eqb_eq (a b : Swap.Status) :
  Swap.status_eqb a b = true <-> a = b.
Proof. destruct a, b; simpl; split; congruence. Qed.

Lemma isParticipant_iff (s : Swap.t) (user : Id) :
  Swap.isParticipant s user = true
  <-> user = Swap.requester s \/ user = Swap.provider s.
Proof.
  unfold Swap.isParticipant. cbn [existsb].
  rewrite orb_false_r, orb_true_iff, !String.eqb_eq. reflexivity.
Qed.

(** What a single call can do to a stored request: nothing, or one of the
    four moves; a missing request stays missing. *)
Lemma handle_moves (c : Call) (s : Swap.t) :
  snd (handle c (Some s)) = Some s
  \/ (action c = Accept /\ caller c = Swap.provider s
      /\ Swap.status s = Swap.pending
      /\ snd (handle c (Some s))
         = Some (Swap.Build (Swap.requester s) (Swap.provider s) Swap.accepted
                   (Some (time c)) (Swap.completionDate s)))
  \/ (action c = Reject /\ caller c = Swap.provider s
      /\ Swap.status s = Swap.pending
      /\ snd (handle c (Some s))
         = Some (Swap.Build (Swap.requester s) (Swap.provider s) Swap.rejected
                   (Some (time c)) (Swap.completionDate s)))
  \/ (action c = Complete
      /\ (caller c = Swap.requester s \/ caller c = Swap.provider s)
      /\ Swap.status s = Swap.accepted
      /\ snd (handle c (Some s))
         = Some (Swap.Build (Swap.requester s) (Swap.provider s) Swap.completed
                   (Swap.responseDate s) (Some (time c))))
  \/ (action c = Delete /\ caller c = Swap.requester s
      /\ Swap.status s = Swap.pending
      /\ snd (handle c (Some s)) = None).
Proof.
  unfold handle.
  destruct (action c); cbn [acceptSwap rejectSwap completeSwap deleteSwap].
  - destruct (String.eqb_spec (Swap.provider s) (caller c)) as [E|E];
      cbn [negb]; [|now left].
    destruct (Swap.status_eqb (Swap.status s) Swap.pending) eqn:Es;
      cbn [negb snd]; [|now left].
    apply status_eqb_eq in Es. right; left. auto.
  - destruct (String.eqb_spec (Swap.provider s) (caller c)) as [E|E];
      cbn [negb]; [|now left].
    destruct (Swap.status_eqb (Swap.status s) Swap.pending) eqn:Es;
      cbn [negb snd]; [|now left].
    apply status_eqb_eq in Es. right; right; left. auto.
  - destruct (Swap.isParticipant s (caller c)) eqn:Ep; cbn [negb];
      [|now left].
    destruct (Swap.status_eqb (Swap.status s) Swap.accepted) eqn:Es;
      cbn [negb snd]; [|now left].
    apply status_eqb_eq in Es. apply isParticipant_iff in Ep.
    right; right; right; left. auto.
  - destruct (String.eqb_spec (Swap.requester s) (caller c)) as [E|E];
      cbn [negb]; [|now left].
    destruct (Swap.status_eqb (Swap.status s) Swap.pending) eqn:Es;
      cbn [negb snd]; [|now left].
    apply status_eqb_eq in Es. right; right; right; right. auto.
Qed.

Lemma handle_missing (c : Call) : snd (handle c None) = None.
Proof. unfold handle. now destruct (action c). Qed.

Lemma after_missing (calls : list Call) : after calls None = None.
Proof.
  induction calls as [|c calls IH]; [reflexivity|].
  unfold after in *. cbn [fold_left]. now rewrite handle_missing.
Qed.

Lemma after_snoc (calls : list Call) (c : Call) (doc : option Swap.t) :
  after (calls ++ [c]) doc = snd (handle c (after calls doc)).
Proof. unfold after. now rewrite fold_left_app. Qed.

End SwapLifecycle.

Section SwapRuns.

Lemma handle_regular (requester provider : Id) (c : Call) (s s' : Swap.t) :
  Facts.regular requester provider s ->
  snd (handle c (Some s)) = Some s' ->
  Facts.regular requester provider s'.
Proof.
  intros (Hr & Hp & Hc & Hd & Hcd) E.
  destruct (handle_moves c s)
    as [H|[(_ & _ & Hs & H)|[(_ & _ & Hs & H)|[(_ & _ & Hs & H)|(_ & _ & _ & H)]]]];
    rewrite H in E; try discriminate; injection E as <-.
  all: unfold Facts.regular; cbn; intuition congruence.
Qed.

Lemma after_regular (requester provider : Id) (calls : list Call)
    (s s' : Swap.t) :
  Facts.regular requester provider s ->
  after calls (Some s) = Some s' ->
  Facts.regular requester provider s'.
Proof.
  revert s; induction calls as [|c calls IH]; intros s Hs E.
  - injection E as <-. exact Hs.
  - unfold after in *. cbn [fold_left] in E.
    destruct (snd (handle c (Some s))) as [s1|] eqn:E1.
    + exact (IH s1 (handle_regular _ _ c s s1 Hs E1) E).
    + fold (after calls None) in E. rewrite after_missing in E. discriminate.
Qed.

Lemma fresh_regular (requester provider : Id) :
  Facts.regular requester provider (Swap.fresh requester provider).
Proof.
  unfold Facts.regular, Swap.fresh. cbn.
  repeat split; try discriminate; reflexivity.
Qed.

(** X17.  Whatever calls of accept, reject, complete and delete are made,
    by whomever, a swap request that was created by the request handler
    and still exists keeps its requester and provider, is never cancelled,
    carries a response date exactly when it is no longer pending and a
    completion date exactly when it is completed. *)
Theorem swap_stays_regular (requester provider : Id) (calls : list Call)
    (s : Swap.t) :
  after calls (Some (Swap.fresh requester provider)) = Some s ->
  Facts.regular requester provider s.
Proof.
  apply after_regular, fresh_regular.
Qed.

(** X18.  A completed swap has the history it should have: among the calls
    made there is an accept by the provider, and after it a complete by the
    requester or the provider; the response date and the completion date
    of the document are the times of these two calls. *)
Theorem completed_swap_history (requester provider : Id) (calls : list Call)
    (s : Swap.t) :
  after calls (Some (Swap.fresh requester provider)) = Some s ->
  Swap.status s = Swap.completed ->
  exists before between rest t1 t2 user,
    calls = (before ++ mkCall Accept provider t1
                    :: between ++ mkCall Complete user t2 :: rest)%list
    /\ (user = requester \/ user = provider)
    /\ Swap.responseDate s = Some t1
    /\ Swap.completionDate s = Some t2.
Proof.
  revert s.
  assert (H : forall s,
             after calls (Some (Swap.fresh requester provider)) = Some s ->
             (Swap.status s = Swap.accepted ->
              exists before rest t1,
                calls = (before ++ mkCall Accept provider t1 :: rest)%list
                /\ Swap.responseDate s = Some t1)
             /\ (Swap.status s = Swap.completed ->
                 exists before between rest t1 t2 user,
                   calls = (before ++ mkCall Accept provider t1
                                   :: between ++ mkCall Complete user t2
                                   :: rest)%list
                   /\ (user = requester \/ user = provider)
                   /\ Swap.responseDate s = Some t1
                   /\ Swap.completionDate s = Some t2)).
  { induction calls as [|c calls IH] using rev_ind; intros s E.
    - injection E as <-. cbn. split; discriminate.
    - rewrite after_snoc in E.
      destruct (after calls (Some (Swap.fresh requester provider)))
        as [s0|] eqn:E0; [|rewrite handle_missing in E; discriminate].
      pose proof (after_regular requester provider calls _ s0
                    (fresh_regular requester provider) E0) as (Hr & Hp & _).
      destruct (IH s0 eq_refl) as [IHa IHc].
      destruct (handle_moves c s0)
        as [M|[(Ha & Hc & Hs & M)|[(Ha & Hc & Hs & M)
           |[(Ha & Hc & Hs & M)|(_ & _ & _ & M)]]]];
        rewrite M in E; try discriminate; injection E as <-.
      + split; intros Hst.
        * destruct (IHa Hst) as (before & rest & t1 & -> & Hd).
          exists before, (rest ++ [c])%list, t1.
          split; [now rewrite <- app_assoc | exact Hd].
        * destruct (IHc Hst)
            as (before & between & rest & t1 & t2 & user & -> & Hu & Hd1 & Hd2).
          exists before, between, (rest ++ [c])%list, t1, t2, user.
          split; [|auto].
          rewrite <- app_assoc. cbn [app]. rewrite <- app_assoc. reflexivity.
      + cbn. split; [intros _|discriminate].
        exists calls, [], (time c). split; [|reflexivity].
        destruct c as [a u t]. cbn in *. now subst.
      + cbn. split; discriminate.
      + cbn. split; [discriminate|intros _].
        destruct (IHa Hs) as (before & rest & t1 & -> & Hd).
        exists before, rest, [], t1, (time c), (caller c).
        split; [|split; [|split; [exact Hd | reflexivity]]].
        * destruct c as [a u t]. cbn in *. subst a.
          rewrite <- app_assoc. reflexivity.
        * rewrite <- Hr, <- Hp. exact Hc. }
  intros s E. now apply H.
Qed.

End SwapRuns.

Section SwapClosed.

Lemma handle_closed (c : Call) (s : Swap.t) :
  In (Swap.status s) [Swap.rejected; Swap.completed; Swap.cancelled]
  \/ (caller c <> Swap.requester s /\ caller c <> Swap.provider s) ->
  snd (handle c (Some s)) = Some s.
Proof.
  intros H.
  destruct (handle_moves c s)
    as [M|[(_ & Hc & Hs & _)|[(_ & Hc & Hs & _)
       |[(_ & Hc & Hs & _)|(_ & Hc & Hs & _)]]]]; [exact M|exfalso..];
    destruct H as [[H|[H|[H|[]]]]|[H1 H2]]; try congruence;
    destruct Hc; congruence.
Qed.

(** X19.  A swap request that is rejected, completed or cancelled is
    closed: no series of calls, by anybody, changes or deletes it.  And a
    series of calls by users who are neither the requester nor the provider
    changes no request, whatever its status. *)
Theorem swap_closed (calls : list Call) (s : Swap.t) :
  In (Swap.status s) [Swap.rejected; Swap.completed; Swap.cancelled]
  \/ Forall (fun c => caller c <> Swap.requester s
                      /\ caller c <> Swap.provider s) calls ->
  after calls (Some s) = Some s.
Proof.
  induction calls as [|c calls IH]; intros H; [reflexivity|].
  unfold after in *. cbn [fold_left]. rewrite handle_closed.
  - apply IH. destruct H as [H|H]; [now left|].
    right. now inversion H.
  - destruct H as [H|H]; [now left|]. right. now inversion H.
Qed.

End SwapClosed.

(** ** Suggested lessons and swap requests *)

Section Suggestions.

Lemma existsb_found {A : Type} (f : A -> bool) (l : list A) (x : A) :
  In x l -> f x = true -> existsb f l = true.
Proof. intros Hin Hf. apply existsb_exists. now exists x. Qed.

Lemma same_name_refl (x : string) : same_name x x = true.
Proof. unfold same_name. apply String.eqb_refl. Qed.

(** X20.  What findSkillMatches suggests, the request handler accepts: for
    a skill listed under youCanTeach and a skill listed under theyCanTeach,
    a swap request to that user offering the one and asking for the other
    passes both skill checks and reaches the creation of the document. *)
Theorem requestSwap_accepts_suggestions
    (me providerId : Id) (myProfile providerProfile : User)
    (teach learn : string) :
  providerId <> me ->
  In teach (map YouCanTeach.skill
              (youCanTeach (findSkillMatches myProfile providerProfile))) ->
  In learn (map TheyCanTeach.skill
              (theyCanTeach (findSkillMatches myProfile providerProfile))) ->
  requestSwap me myProfile providerId (Some providerProfile) teach learn
  = Create me providerId teach learn.
Proof.
  intros Hself Hteach Hlearn.
  apply youCanTeach_origin in Hteach as (o1 & _ & Ho1 & _ & -> & _).
  apply theyCanTeach_origin in Hlearn as (o2 & _ & Ho2 & _ & -> & _).
  unfold requestSwap. apply String.eqb_neq in Hself. rewrite Hself.
  cbv zeta.
  rewrite (existsb_found _ _ o2 Ho2 (same_name_refl _)).
  rewrite (existsb_found _ _ o1 Ho1 (same_name_refl _)).
  reflexivity.
Qed.

End Suggestions.

(** ** Creating a rating *)

Section CreateRating.

Lemma createDocument_stars (user : Id) (body : RatingBody.t) (r : Rating.t) :
  createDocument user body = Some r ->
  1 <= Rating.rating r <= 5
  /\ Rating.rater r = user
  /\ Rating.swapRequest r = RatingBody.swapRequestId body
  /\ RatingBody.ratedUserId body = Some (Rating.rated r).
Proof.
  unfold createDocument.
  destruct (RatingBody.ratedUserId body) as [rated|]; [|discriminate].
  destruct (RatingBody.rating body) as [q|]; [|discriminate].
  destruct (inStars (Some q)) eqn:Eq; cbn [andb]; [|discriminate].
  destruct (_ && _); [|discriminate].
  intros [= <-]. cbn. cbn [inStars] in Eq.
  apply andb_true_iff in Eq as [H1 H2]. apply Qle_bool_iff in H1, H2. auto.
Qed.

Ltac refused :=
  cbn; split; [discriminate | split; [reflexivity | trivial]].

(** X21.  createRating answers 201 only to a participant of a completed
    swap who has not rated that swap before.  It then adds one rating, made
    by the caller for that swap, to the collection; with any other reply
    the collection is as before.  In both cases a collection that had stars
    between 1 and 5 and at most one rating per swap and rater still has. *)
Theorem createRating_keeps_collection
    (user : Id) (body : RatingBody.t) (found : option Swap.t)
    (allRatings : list Rating.t) :
  let r := createRating user body found allRatings in
  (Rated.reply r = Created ->
   exists swapRequest newRating,
     found = Some swapRequest
     /\ Swap.status swapRequest = Swap.completed
     /\ (user = Swap.requester swapRequest \/ user = Swap.provider swapRequest)
     /\ Rated.ratings r = (allRatings ++ [newRating])%list
     /\ Rating.rater newRating = user
     /\ Rating.swapRequest newRating = RatingBody.swapRequestId body)
  /\ (Rated.reply r <> Created -> Rated.ratings r = allRatings)
  /\ (Facts.wellRated allRatings -> Facts.wellRated (Rated.ratings r)).
Proof.
  intros r. subst r. unfold createRating.
  destruct found as [s|]; cbn zeta; [|refused].
  destruct (Swap.status_eqb (Swap.status s) Swap.completed) eqn:Es;
    cbn [negb]; [|refused].
  destruct (Swap.isParticipant s user) eqn:Ep; cbn [negb]; [|refused].
  destruct (find _ allRatings) as [existing|] eqn:Ef; [refused|].
  destruct (createDocument user body) as [newRating|] eqn:Ec; [|refused].
  apply status_eqb_eq in Es. apply isParticipant_iff in Ep.
  destruct (createDocument_stars _ _ _ Ec) as (Hstars & Hrater & Hswap & _).
  cbn [Rated.reply Rated.ratings]. split; [|split].
  - intros _. exists s, newRating. unfold push. repeat split; auto.
  - intros H. now contradiction H.
  - intros [Hall Hkeys]. unfold push. split.
    + apply Forall_app. split; [exact Hall | repeat constructor; apply Hstars].
    + rewrite map_app. cbn [map].
      apply NoDup_app; [exact Hkeys | repeat constructor; auto |].
      intros key Hin [<-|[]].
      apply in_map_iff in Hin as (x & Hx & Hin).
      pose proof (find_none _ _ Ef x Hin) as Hno. cbn beta in Hno.
      unfold Facts.ratingKey in Hx. injection Hx as H1 H2.
      rewrite H1, H2, Hswap, Hrater, !String.eqb_refl in Hno. discriminate.
Qed.

End CreateRating.

Section RatedUser.

(** X22.  After a 201 the rated user's document is updated: the average
    written counts the new rating, is between 1 and 5, and totalRatings is
    the number of ratings the collection now holds for that user, at least
    one; this for a collection whose stars were between 1 and 5. *)
Theorem createRating_updates_average
    (user : Id) (body : RatingBody.t) (found : option Swap.t)
    (allRatings : list Rating.t) :
  let r := createRating user body found allRatings in
  Facts.wellRated allRatings ->
  Rated.reply r = Created ->
  exists (rated : Id) (average : Q) (n : nat),
    RatingBody.ratedUserId body = Some rated
    /\ Rated.userUpdate r
       = Some (rated, {| RatingUpdate.averageRating := Num average;
                         RatingUpdate.totalRatings := n |})
    /\ 1 <= average <= 5
    /\ (1 <= n)%nat
    /\ n = List.length
             (filter (fun x => String.eqb (Rating.rated x) rated)
                     (Rated.ratings r)).
Proof.
  intros r [Hall _]. subst r. unfold createRating.
  destruct found as [s|]; cbn zeta; [|discriminate].
  destruct (negb (Swap.status_eqb _ _)); [discriminate|].
  destruct (negb (Swap.isParticipant _ _)); [discriminate|].
  destruct (find _ allRatings); [discriminate|].
  destruct (createDocument user body) as [newRating|] eqn:Ec; [|discriminate].
  intros _. cbn [Rated.userUpdate Rated.ratings].
  destruct (createDocument_stars _ _ _ Ec) as (Hstars & _ & _ & Hrated).
  set (rated := Rating.rated newRating) in *.
  set (mine := filter (fun x => String.eqb (Rating.rated x) rated)
                      (push allRatings newRating)).
  assert (Hin : In newRating mine).
  { apply filter_In. split; [apply in_or_app; right; now left|].
    apply String.eqb_refl. }
  assert (Hne : mine <> []) by (intros E; rewrite E in Hin; contradiction).
  assert (Hmine : Forall (fun x => 1 <= Rating.rating x <= 5) mine).
  { apply Forall_forall. intros x Hx. apply filter_In in Hx as [Hx _].
    apply in_app_or in Hx as [Hx|[<-|[]]]; [|exact Hstars].
    rewrite Forall_forall in Hall. now apply Hall. }
  destruct (average_written (push allRatings newRating) rated Hne Hmine)
    as (a & k & -> & _ & Ha & _).
  exists rated, a, (List.length mine). cbn [option_map].
  repeat split; try tauto.
  destruct mine; [contradiction | simpl; lia].
Qed.

End RatedUser.

(** ** The handlers at work on example data *)

Section HandlerEvidence.

(** X12, evidence: 31 entries make four pages of 10, 10, 10 and 1. *)
Lemma matches_pages_tile_witness :
  let scoredUsers := seq 0 31 in
  Page.totalPages
    (Page.pagination (Page.paginate Page.Absent Page.Absent scoredUsers))
  = Some 4%Z
  /\ List.concat
       (map (fun p =>
               Page.data
                 (Page.paginate (Page.Numeral (N.of_nat p)) Page.Absent
                    scoredUsers))
            (seq 1 4))
     = scoredUsers.
Proof.
  intros scoredUsers. split; [reflexivity|].
  exact (proj2 (proj2 (matches_pages_tile scoredUsers 4 eq_refl))).
Defined.


(** X14, evidence: thirteen candidates, ten on page 1 and three on page 2. *)
Lemma getMatches_pages_in_rank_order_witness :
  exists pageP pageQ,
    getMatches Scenario.now (Some Scenario.currentUser) Examples.crowd
               (Page.Numeral 1) Page.Absent = Some pageP
    /\ getMatches Scenario.now (Some Scenario.currentUser) Examples.crowd
                  (Page.Numeral 2) Page.Absent = Some pageQ
    /\ List.length (Page.data pageQ) = 3%nat
    /\ Spec.descending (Page.data pageP)
    /\ forall u v, In u (Page.data pageP) -> In v (Page.data pageQ) ->
                   Spec.score_of v <= Spec.score_of u.
Proof.
  eexists. eexists.
  split; [reflexivity|]. split; [reflexivity|].
  split; [vm_compute; reflexivity|].
  apply (getMatches_pages_in_rank_order Scenario.now Scenario.currentUser
           Examples.crowd 1 2); [lia | lia | reflexivity | reflexivity].
Defined.


(** X17, evidence: a run with refused calls in it that ends completed. *)
Lemma swap_stays_regular_witness :
  after Examples.history (Some (Swap.fresh "ann" "bob")) = Some Examples.done
  /\ Facts.regular "ann" "bob" Examples.done.
Proof.
  split; [reflexivity|].
  exact (swap_stays_regular "ann" "bob" Examples.history Examples.done
           eq_refl).
Defined.

(** X18, evidence: the same run has its accept and its complete. *)
Lemma completed_swap_history_witness :
  exists before between rest t1 t2 user,
    Examples.history
    = (before ++ mkCall Accept "bob" t1
              :: between ++ mkCall Complete user t2 :: rest)%list
    /\ (user = "ann" \/ user = "bob")
    /\ Swap.responseDate Examples.done = Some t1
    /\ Swap.completionDate Examples.done = Some t2.
Proof.
  exact (completed_swap_history "ann" "bob" Examples.history Examples.done
           eq_refl eq_refl).
Defined.

(** X19, evidence: a completed request, and calls by strangers. *)
Lemma swap_closed_witness :
  after Examples.history (Some Examples.done) = Some Examples.done
  /\ after [mkCall Accept "eve" 10; mkCall Delete "zed" 20]
           (Some (Swap.fresh "ann" "bob"))
     = Some (Swap.fresh "ann" "bob").
Proof.
  split.
  - apply swap_closed. left. cbn. tauto.
  - apply swap_closed. right. repeat constructor; cbn; discriminate.
Defined.

(** X20, evidence: the current user of the scenarios can teach JavaScript
    to the candidate and learn Python from them. *)
Lemma requestSwap_accepts_suggestions_witness :
  In "JavaScript"
     (map YouCanTeach.skill
        (youCanTeach
           (findSkillMatches Scenario.currentUser Scenario.candidate)))
  /\ In "Python"
        (map TheyCanTeach.skill
           (theyCanTeach
              (findSkillMatches Scenario.currentUser Scenario.candidate)))
  /\ requestSwap "ann" Scenario.currentUser "bob" (Some Scenario.candidate)
                 "JavaScript" "Python"
     = Create "ann" "bob" "JavaScript" "Python".
Proof.
  assert (H1 : In "JavaScript"
                  (map YouCanTeach.skill
                     (youCanTeach
                        (findSkillMatches Scenario.currentUser
                           Scenario.candidate)))) by (vm_compute; tauto).
  assert (H2 : In "Python"
                  (map TheyCanTeach.skill
                     (theyCanTeach
                        (findSkillMatches Scenario.currentUser
                           Scenario.candidate)))) by (vm_compute; tauto).
  split; [exact H1|]. split; [exact H2|].
  apply requestSwap_accepts_suggestions; [discriminate | exact H1 | exact H2].
Defined.

(** X22, evidence: a fourth rating of 5 after 5, 4 and 4 gives 4.5. *)
Lemma createRating_updates_average_witness :
  let r := createRating "ann" Examples.annRatesBob (Some Examples.done)
             Examples.collection in
  Facts.wellRated Examples.collection
  /\ Rated.reply r = Created
  /\ Rated.userUpdate r
     = Some ("bob", {| RatingUpdate.averageRating := Num 4.5;
                       RatingUpdate.totalRatings := 4 |})
  /\ exists (rated : Id) (average : Q) (n : nat),
       RatingBody.ratedUserId Examples.annRatesBob = Some rated
       /\ Rated.userUpdate r
          = Some (rated, {| RatingUpdate.averageRating := Num average;
                            RatingUpdate.totalRatings := n |})
       /\ 1 <= average <= 5
       /\ (1 <= n)%nat
       /\ n = List.length
                (filter (fun x => String.eqb (Rating.rated x) rated)
                        (Rated.ratings r)).
Proof.
  intros r.
  assert (Hw : Facts.wellRated Examples.collection).
  { split.
    - repeat constructor; cbn; lra.
    - repeat constructor; cbn; intuition discriminate. }
  split; [exact Hw|]. split; [reflexivity|].
  split; [vm_compute; reflexivity|].
  exact (createRating_updates_average "ann" Examples.annRatesBob
           (Some Examples.done) Examples.collection Hw eq_refl).
Defined.

End HandlerEvidence.
